(** * Fixed performance counters of one x86_64 core (osfmk/x86_64/monotonic_x86_64.c)

    A shallow embedding of the fixed-counter driver: the counter access
    primitives [mt_core_snap] and [mt_core_set_snap], the power transitions
    [mt_cpu_down] and [mt_cpu_up], the overflow interrupt handler
    [mt_pmi_x86_64] and [mt_init].

    The code is stateful and can halt the kernel, so it is written in a state
    and fault monad over a [machine]: the kernel state the C code reads and
    writes, plus a log of the hardware primitives and foreign functions this
    file invokes, in program order.  64-bit unsigned values are [Z] with
    the wrap-around written out ([wrap64]). *)

From Stdlib Require Import ZArith String Lia.
From stdpp Require Import base numbers list.

Local Open Scope Z_scope.

(** ** Machine integers *)

(** [uint64_t] arithmetic: every result is reduced modulo 2^64. *)
Definition wrap64 (z : Z) : Z := z mod 2 ^ 64.

(** [UINT64_C(1) << n] *)
Definition shl64 (z n : Z) : Z := wrap64 (Z.shiftl z n).

(** A C condition [if (e)] on an integer expression. *)
Definition nonzero (z : Z) : bool := negb (z =? 0).

(** ** Constants of the file *)

(** [#define CTR_MAX ((UINT64_C(1) << 48) - 1)] *)
Definition CTR_MAX : Z := wrap64 (shl64 1 48 - 1).

(** [#define CTR_FIX_POS(CTR) ((UINT64_C(1) << (CTR)) << 32)] *)
Definition CTR_FIX_POS (ctr : Z) : Z := shl64 (shl64 1 ctr) 32.

(** [#define PMC_FIXED_RD(CTR) ((UINT64_C(1) << 30) | (CTR))] *)
Definition PMC_FIXED_RD (ctr : Z) : Z := Z.lor (shl64 1 30) ctr.

Definition FIXED_CTR_CTRL : Z := 0x38d.
Definition FIXED_CTR_CTRL_INIT : Z := Z.lor 0x888 0x333.
Definition GLOBAL_CTRL : Z := 0x38f.
Definition GLOBAL_CTRL_FIXED_EN : Z := shl64 (wrap64 (shl64 1 3 - 1)) 32.
Definition GLOBAL_STATUS : Z := 0x38e.
Definition GLOBAL_OVF : Z := 0x390.

(** The mask of the handler's last test, [(UINT64_C(1) << 4) - 1]. *)
Definition CONFIGURABLE_OVF_MASK : Z := wrap64 (shl64 1 4 - 1).

(** Modelled from the spec: the constant [MT_CORE_NFIXED] of
    x86_64/monotonic.h, which is not among the sources; the spec has three
    fixed counters, with indices 0, 1 and 2. *)
Definition MT_CORE_NFIXED : nat := 3.

(** ** Data *)

(** Modelled from the spec: [struct mt_cpu] of kern/monotonic.h, which is not
    among the sources.  [mtc_snaps] is the spec's snapshot[i], [mtc_counts] its
    accumulated[i]; both are arrays of [MT_CORE_NFIXED] 64-bit fields. *)
Record mt_cpu : Type := MtCpu {
  mtc_counts : list Z;
  mtc_snaps : list Z
}.

(** An array read [a[i]].  The arrays have [MT_CORE_NFIXED] elements and the
    code only indexes them below that bound. *)
Definition array_get (a : list Z) (i : nat) : Z := default 0 (a !! i).

(** What the kernel code can see of one core: the hardware [HW], the globals
    of this file and of kern_monotonic.c, and the core's [cpu_data_t]. *)
Record kstate (HW : Type) : Type := KState {
  hw : HW;
  mt_core_supported : bool;
  interrupts_enabled : bool;
  cpu_monotonic : mt_cpu;
  mt_pmis : Z;
  lapic_pmi_func : bool
}.
Arguments KState {HW}.
Arguments hw {HW}.
Arguments mt_core_supported {HW}.
Arguments interrupts_enabled {HW}.
Arguments cpu_monotonic {HW}.
Arguments mt_pmis {HW}.
Arguments lapic_pmi_func {HW}.

(** The hardware primitives and foreign functions this file's code invokes. *)
Inductive event : Type :=
| EvRdmsr (msr : Z)
| EvWrmsr (msr val : Z)
| EvRdpmc (sel : Z)
| EvCpuid (leaf : Z)
| EvSetInterrupts (en : bool)
| EvUpdateCount (ctr : Z)
| EvUpdateFixedCounts
| EvKpcPmi (state : Z)
| EvLapicSetPmiFunc.

Record machine (HW : Type) : Type := Machine {
  ks : kstate HW;
  log : list event
}.
Arguments Machine {HW}.
Arguments ks {HW}.
Arguments log {HW}.

(** ** The interfaces the file consumes

    The register primitives, the CPU identification call and the functions of
    other kernel files are not part of this file: they are parameters.  A
    foreign function is a transformer of the whole kernel state, so nothing is
    assumed about what it leaves alone. *)
Class Platform (HW : Type) : Type := {
  (** [MSR_IA32_PERF_FIXED_CTR0] of i386/proc_reg.h *)
  MSR_IA32_PERF_FIXED_CTR0 : Z;
  hw_rdmsr : Z → HW → Z;
  hw_wrmsr : Z → Z → HW → HW;
  hw_rdpmc : Z → HW → Z;
  (** what [do_cpuid(leaf, cpuinfo)] stores into [cpuinfo[0..3]] *)
  hw_cpuid : Z → HW → list Z;
  (** [mt_mtc_update_count(mtc, ctr)], result dropped by its caller here *)
  update_count_effect : Z → kstate HW → kstate HW;
  (** [mt_mtc_update_fixed_counts(mtc, NULL, NULL)] *)
  update_fixed_counts_effect : kstate HW → kstate HW;
  (** [kpc_pmi_handler(state)] *)
  kpc_pmi_effect : Z → kstate HW → kstate HW
}.

(** ** State and fault monad *)

Inductive fault : Type :=
| Panic (msg : string) (arg : Z)
| AssertFailed (cond : string).

(** A run either returns a value, or halts the core in the state reached. *)
Inductive result (S A : Type) : Type :=
| Done (a : A) (s : S)
| Halt (f : fault) (s : S).
Arguments Done {S A}.
Arguments Halt {S A}.

Definition M (S A : Type) : Type := S → result S A.

#[export] Instance M_ret {S} : MRet (M S) := λ A a s, Done a s.
#[export] Instance M_bind {S} : MBind (M S) := λ A B f c s,
  match c s with
  | Done a s' => f a s'
  | Halt e s' => Halt e s'
  end.

(** [for (int i = 0; i < n; i++) body(i)] runs [body] over [seq 0 n]. *)
Fixpoint for_each {S A} (body : A → M S unit) (l : list A) : M S unit :=
  match l with
  | [] => mret tt
  | i :: l' => body i;; for_each body l'
  end.

Section Monotonic.
Context {HW : Type} `{!Platform HW}.

Local Abbreviation K := (kstate HW).
Local Abbreviation Mach := (M (machine HW)).

(** *** State access *)

Definition get_ks : Mach K := λ m, Done (ks m) m.

Definition modify_ks (f : K → K) : Mach unit :=
  λ m, Done tt (Machine (f (ks m)) (log m)).

Definition emit (e : event) : Mach unit :=
  λ m, Done tt (Machine (ks m) (log m ++ [e])).

Definition set_hw (h : HW) (k : K) : K :=
  KState h (mt_core_supported k) (interrupts_enabled k) (cpu_monotonic k)
         (mt_pmis k) (lapic_pmi_func k).
Definition set_supported (b : bool) (k : K) : K :=
  KState (hw k) b (interrupts_enabled k) (cpu_monotonic k)
         (mt_pmis k) (lapic_pmi_func k).
Definition set_interrupts (b : bool) (k : K) : K :=
  KState (hw k) (mt_core_supported k) b (cpu_monotonic k)
         (mt_pmis k) (lapic_pmi_func k).
Definition set_mtc (c : mt_cpu) (k : K) : K :=
  KState (hw k) (mt_core_supported k) (interrupts_enabled k) c
         (mt_pmis k) (lapic_pmi_func k).
Definition set_pmis (n : Z) (k : K) : K :=
  KState (hw k) (mt_core_supported k) (interrupts_enabled k) (cpu_monotonic k)
         n (lapic_pmi_func k).
Definition set_pmi_func (b : bool) (k : K) : K :=
  KState (hw k) (mt_core_supported k) (interrupts_enabled k) (cpu_monotonic k)
         (mt_pmis k) b.

Definition set_count (i : nat) (v : Z) (c : mt_cpu) : mt_cpu :=
  MtCpu (<[i := v]> (mtc_counts c)) (mtc_snaps c).
Definition set_snap (i : nat) (v : Z) (c : mt_cpu) : mt_cpu :=
  MtCpu (mtc_counts c) (<[i := v]> (mtc_snaps c)).

(** *** Primitives *)

Definition panic {A} (msg : string) (arg : Z) : Mach A :=
  λ m, Halt (Panic msg arg) m.

(** Modelled from the spec: the [assert] macro of kern/assert.h, which is not
    among the sources.  The spec makes a failed assertion a fatal
    internal-consistency fault that halts the core. *)
Definition assert (b : bool) (cond : string) : Mach unit :=
  λ m, if b then Done tt m else Halt (AssertFailed cond) m.

Definition rdmsr64 (msr : Z) : Mach Z :=
  emit (EvRdmsr msr);; k ← get_ks; mret (hw_rdmsr msr (hw k)).

Definition wrmsr64 (msr val : Z) : Mach unit :=
  emit (EvWrmsr msr val);; modify_ks (λ k, set_hw (hw_wrmsr msr val (hw k)) k).

(** [__builtin_ia32_rdpmc] *)
Definition rdpmc (sel : Z) : Mach Z :=
  emit (EvRdpmc sel);; k ← get_ks; mret (hw_rdpmc sel (hw k)).

Definition do_cpuid (leaf : Z) : Mach (list Z) :=
  emit (EvCpuid leaf);; k ← get_ks; mret (hw_cpuid leaf (hw k)).

Definition ml_get_interrupts_enabled : Mach bool :=
  k ← get_ks; mret (interrupts_enabled k).

(** Modelled from the spec: [ml_set_interrupts_enabled] of the machine layer,
    which is not among the sources.  It sets the interrupt-enabled state of
    the core and returns the prior one. *)
Definition ml_set_interrupts_enabled (en : bool) : Mach bool :=
  k ← get_ks;
  emit (EvSetInterrupts en);;
  modify_ks (set_interrupts en);;
  mret (interrupts_enabled k).

Definition mt_mtc_update_count (ctr : Z) : Mach unit :=
  emit (EvUpdateCount ctr);; modify_ks (update_count_effect ctr).

Definition mt_mtc_update_fixed_counts : Mach unit :=
  emit EvUpdateFixedCounts;; modify_ks update_fixed_counts_effect.

Definition kpc_pmi_handler (state : Z) : Mach unit :=
  emit (EvKpcPmi state);; modify_ks (kpc_pmi_effect state).

Definition lapic_set_pmi_func : Mach unit :=
  emit EvLapicSetPmiFunc;; modify_ks (set_pmi_func true).

(** *** Counter register access *)

Definition PMC_FIXED_WR (ctr : Z) : Z := MSR_IA32_PERF_FIXED_CTR0 + ctr.

Definition mt_core_snap (ctr : Z) : Mach Z :=
  k ← get_ks;
  if negb (mt_core_supported k) then mret 0
  else match ctr with
       | 0 => rdpmc (PMC_FIXED_RD 0)
       | 1 => rdpmc (PMC_FIXED_RD 1)
       | 2 => rdpmc (PMC_FIXED_RD 2)
       | _ => panic "monotonic: invalid core counter read: %u" ctr
       end.

Definition mt_core_set_snap (ctr count : Z) : Mach unit :=
  k ← get_ks;
  if negb (mt_core_supported k) then mret tt
  else match ctr with
       | 0 => wrmsr64 (PMC_FIXED_WR 0) count
       | 1 => wrmsr64 (PMC_FIXED_WR 1) count
       | 2 => wrmsr64 (PMC_FIXED_WR 2) count
       | _ => panic "monotonic: invalid core counter write: %u" ctr
       end.

(** *** Power transitions

    The model follows one core; the [cpu] argument of these functions is that
    core's [cpu_data_t]. *)

Definition core_down : Mach unit :=
  k ← get_ks;
  if negb (mt_core_supported k) then mret tt
  else
    en ← ml_get_interrupts_enabled;
    assert (negb en) "ml_get_interrupts_enabled() == FALSE";;
    wrmsr64 GLOBAL_CTRL 0;;
    mt_mtc_update_fixed_counts.

Definition core_up_restore (i : nat) : Mach unit :=
  k ← get_ks;
  mt_core_set_snap (Z.of_nat i) (array_get (mtc_snaps (cpu_monotonic k)) i).

Definition core_up : Mach unit :=
  k ← get_ks;
  if negb (mt_core_supported k) then mret tt
  else
    en ← ml_get_interrupts_enabled;
    assert (negb en) "ml_get_interrupts_enabled() == FALSE";;
    for_each core_up_restore (seq 0 MT_CORE_NFIXED);;
    wrmsr64 FIXED_CTR_CTRL FIXED_CTR_CTRL_INIT;;
    wrmsr64 GLOBAL_CTRL GLOBAL_CTRL_FIXED_EN.

Definition mt_cpu_down : Mach unit := core_down.

Definition mt_cpu_up : Mach unit :=
  intrs_en ← ml_set_interrupts_enabled false;
  core_up;;
  ml_set_interrupts_enabled intrs_en;;
  mret tt.

(** *** Overflow interrupt handler *)

(** [prior = CTR_MAX - mtc->mtc_snaps[i]] *)
Definition pmi_prior (snap : Z) : Z := wrap64 (CTR_MAX - snap).

(** The value added to the count: [prior] after [prior += 1]. *)
Definition pmi_wrapped (snap : Z) : Z := wrap64 (pmi_prior snap + 1).

(** The handler's own statements for an overflowed counter [i], up to the
    call of [mt_mtc_update_count]. *)
Definition pmi_fold (i : nat) : Mach unit :=
  k ← get_ks;
  let prior := pmi_prior (array_get (mtc_snaps (cpu_monotonic k)) i) in
  assert (prior <=? CTR_MAX) "prior <= CTR_MAX";;
  let prior := wrap64 (prior + 1) in
  modify_ks (λ k, set_mtc (set_count i
    (wrap64 (array_get (mtc_counts (cpu_monotonic k)) i + prior))
    (cpu_monotonic k)) k);;
  modify_ks (λ k, set_mtc (set_snap i 0 (cpu_monotonic k)) k).

(** One iteration of the loop over the fixed counters.  The local
    [fixed_ovf] is set and never read, so it is left out. *)
Definition pmi_fixed (status : Z) (i : nat) : Mach unit :=
  if nonzero (Z.land status (CTR_FIX_POS (Z.of_nat i))) then
    pmi_fold i;;
    mt_mtc_update_count (Z.of_nat i)
  else mret tt.

Definition mt_pmi_x86_64 (state : Z) : Mach Z :=
  en ← ml_get_interrupts_enabled;
  assert (negb en) "ml_get_interrupts_enabled() == FALSE";;
  status ← rdmsr64 GLOBAL_STATUS;
  modify_ks (λ k, set_pmis (wrap64 (mt_pmis k + 1)) k);;
  for_each (pmi_fixed status) (seq 0 MT_CORE_NFIXED);;
  (if nonzero (Z.land status CONFIGURABLE_OVF_MASK)
   then kpc_pmi_handler state else mret tt);;
  mret 0.

(** *** Feature initialization *)

Definition mt_init : Mach unit :=
  cpuinfo ← do_cpuid 0xA;
  if 2 <=? Z.land (array_get cpuinfo 0) 0xff then
    lapic_set_pmi_func;;
    modify_ks (set_supported true)
  else mret tt.

End Monotonic.

(** ** Sequences of operations *)

(** The entry points of the file, and what happens between two of them: the
    hardware runs on and the kernel changes the interrupt-enabled state of the
    core ([OpEnv]); neither touches the core's [mt_cpu]. *)
Inductive op (HW : Type) : Type :=
| OpCoreSnap (ctr : Z)
| OpCoreSetSnap (ctr count : Z)
| OpCpuDown
| OpCpuUp
| OpPmi (state : Z)
| OpInit
| OpEnv (h : HW) (en : bool).
Arguments OpCoreSnap {HW}.
Arguments OpCoreSetSnap {HW}.
Arguments OpCpuDown {HW}.
Arguments OpCpuUp {HW}.
Arguments OpPmi {HW}.
Arguments OpInit {HW}.
Arguments OpEnv {HW}.

Section Operations.
Context {HW : Type} `{!Platform HW}.

Definition exec (o : op HW) : M (machine HW) unit :=
  match o with
  | OpCoreSnap ctr => mt_core_snap ctr;; mret tt
  | OpCoreSetSnap ctr count => mt_core_set_snap ctr count
  | OpCpuDown => mt_cpu_down
  | OpCpuUp => mt_cpu_up
  | OpPmi state => mt_pmi_x86_64 state;; mret tt
  | OpInit => mt_init
  | OpEnv h en => modify_ks (λ k, set_interrupts en (set_hw h k))
  end.

(** The overflow status the handler will read. *)
Definition pending_status (m : machine HW) : Z :=
  hw_rdmsr GLOBAL_STATUS (hw (ks m)).

(** Room for the folds of the loop over the counters [l], started in the
    machine [m]: whenever the loop reaches an overflowed counter, one more wrap
    of the 48-bit counter (2^48) still fits into its 64-bit count.  The
    machine in which the loop reaches the next counter is the one the
    iteration itself returns. *)
Fixpoint folds_have_room (status : Z) (l : list nat) (m : machine HW) : Prop :=
  match l with
  | [] => True
  | i :: l' =>
      (nonzero (Z.land status (CTR_FIX_POS (Z.of_nat i))) = true →
         array_get (mtc_counts (cpu_monotonic (ks m))) i + 2 ^ 48 < 2 ^ 64)
      ∧ match pmi_fixed status i m with
        | Done _ m1 => folds_have_room status l' m1
        | Halt _ _ => True
        end
  end.

(** The machine in which the loop of the handler starts: the status is read
    and [mt_pmis] incremented. *)
Definition pmi_loop_start (m : machine HW) : machine HW :=
  Machine (set_pmis (wrap64 (mt_pmis (ks m) + 1)) (ks m))
          (log m ++ [EvRdmsr GLOBAL_STATUS]).

(** Room for every fold of the interrupt that is pending in [m]. *)
Definition pmi_headroom (m : machine HW) : Prop :=
  folds_have_room (pending_status m) (seq 0 MT_CORE_NFIXED) (pmi_loop_start m).

Definition op_headroom (o : op HW) (m : machine HW) : Prop :=
  match o with
  | OpPmi _ => pmi_headroom m
  | _ => True
  end.

(** [reaches m m']: some sequence of operations, none of which halts and each
    interrupt of which has room for its folds, leads from [m] to [m']. *)
Inductive reaches : machine HW → machine HW → Prop :=
| reaches_refl m : reaches m m
| reaches_step m m1 o m2 :
    reaches m m1 → op_headroom o m1 → exec o m1 = Done tt m2 → reaches m m2.

(** What this file relies on from the functions of kern_monotonic.c and kpc
    where a statement is about the state they return. *)
Record foreign_frame : Prop := {
  (** [mt_mtc_update_count] leaves the counts to its caller ... *)
  update_count_counts : ∀ ctr k,
    mtc_counts (cpu_monotonic (update_count_effect ctr k))
    = mtc_counts (cpu_monotonic k);
  (** ... and takes a snapshot of counter [ctr] only. *)
  update_count_snaps : ∀ ctr k (j : nat), Z.of_nat j ≠ ctr →
    mtc_snaps (cpu_monotonic (update_count_effect ctr k)) !! j
    = mtc_snaps (cpu_monotonic k) !! j;
  update_fixed_counts_mono : ∀ k (j : nat),
    array_get (mtc_counts (cpu_monotonic k)) j
    ≤ array_get (mtc_counts (cpu_monotonic (update_fixed_counts_effect k))) j;
  kpc_pmi_mono : ∀ state k (j : nat),
    array_get (mtc_counts (cpu_monotonic k)) j
    ≤ array_get (mtc_counts (cpu_monotonic (kpc_pmi_effect state k))) j
}.

End Operations.
Arguments foreign_frame HW {_}.

(** ** Vocabulary of the statements *)

Definition result_state {S A} (r : result S A) : S :=
  match r with
  | Done _ s => s
  | Halt _ s => s
  end.

(** The interrupt contexts handed to [kpc_pmi_handler], in order. *)
Definition kpc_forwards (l : list event) : list Z :=
  flat_map (λ e, match e with EvKpcPmi state => [state] | _ => [] end) l.

(** The register writes in a log, in order. *)
Definition msr_writes (l : list event) : list (Z * Z) :=
  flat_map (λ e, match e with EvWrmsr msr val => [(msr, val)] | _ => [] end) l.

(** The calls of [mt_mtc_update_count] the loop of the handler makes over the
    counters [l] for a given status. *)
Definition update_calls (status : Z) (l : list nat) : list event :=
  flat_map (λ i : nat,
    if nonzero (Z.land status (CTR_FIX_POS (Z.of_nat i)))
    then [EvUpdateCount (Z.of_nat i)] else []) l.

Section Statements.
Context {HW : Type} `{!Platform HW}.

(** The hardware after the five register writes of [core_up], innermost
    first. *)
Definition core_up_hw (snaps : list Z) (h : HW) : HW :=
  hw_wrmsr GLOBAL_CTRL GLOBAL_CTRL_FIXED_EN
    (hw_wrmsr FIXED_CTR_CTRL FIXED_CTR_CTRL_INIT
      (hw_wrmsr (PMC_FIXED_WR 2) (array_get snaps 2)
        (hw_wrmsr (PMC_FIXED_WR 1) (array_get snaps 1)
          (hw_wrmsr (PMC_FIXED_WR 0) (array_get snaps 0) h)))).

(** The same five writes as they are logged, first to last. *)
Definition core_up_writes (snaps : list Z) : list event :=
  [ EvWrmsr (PMC_FIXED_WR 0) (array_get snaps 0);
    EvWrmsr (PMC_FIXED_WR 1) (array_get snaps 1);
    EvWrmsr (PMC_FIXED_WR 2) (array_get snaps 2);
    EvWrmsr FIXED_CTR_CTRL FIXED_CTR_CTRL_INIT;
    EvWrmsr GLOBAL_CTRL GLOBAL_CTRL_FIXED_EN ].

(** The kernel state after the handler's own statements for an overflowed
    counter [i]: the wrapped distance added to the count, the snapshot 0. *)
Definition folded (i : nat) (k : kstate HW) : kstate HW :=
  let c := cpu_monotonic k in
  set_mtc (MtCpu (<[i := wrap64 (array_get (mtc_counts c) i
                                 + pmi_wrapped (array_get (mtc_snaps c) i))]>
                    (mtc_counts c))
                 (<[i := 0]> (mtc_snaps c))) k.

(** What follows the increment of [mt_pmis]. *)
Definition pmi_rest (status state : Z) : M (machine HW) Z :=
  for_each (pmi_fixed status) (seq 0 MT_CORE_NFIXED);;
  (if nonzero (Z.land status CONFIGURABLE_OVF_MASK)
   then kpc_pmi_handler state else mret tt);;
  mret 0.

(** [f] returns every count at least as large as it found it. *)
Definition never_decreases_counts (f : kstate HW → kstate HW) : Prop :=
  ∀ (k : kstate HW) (j : nat),
    array_get (mtc_counts (cpu_monotonic k)) j
    ≤ array_get (mtc_counts (cpu_monotonic (f k))) j.

(** The spec's overflow arithmetic for counter [i] on the core's record: the
    wrap delta (2^48 - 1 - snapshot) + 1 added to the count in 64 bits, the
    snapshot 0. *)
Definition fold_overflow (i : nat) (c : mt_cpu) : mt_cpu :=
  let delta := (2 ^ 48 - 1 - array_get (mtc_snaps c) i) + 1 in
  MtCpu (<[i := wrap64 (array_get (mtc_counts c) i + delta)]> (mtc_counts c))
        (<[i := 0]> (mtc_snaps c)).

(** What the handler does for counter [i] by the spec: if status bit
    [32 + i] is set, the overflow arithmetic and then the call of
    [mt_mtc_update_count] for [i]; nothing otherwise. *)
Definition pmi_counter_step (status : Z) (k : kstate HW) (i : nat) : kstate HW :=
  if Z.testbit status (32 + Z.of_nat i)
  then update_count_effect (Z.of_nat i) (set_mtc (fold_overflow i (cpu_monotonic k)) k)
  else k.

(** The snapshots of the counters with a pending overflow are counter values:
    at most [CTR_MAX]. *)
Definition pmi_snaps_in_range (m : machine HW) : Prop :=
  ∀ i : nat, (i < MT_CORE_NFIXED)%nat →
    nonzero (Z.land (pending_status m) (CTR_FIX_POS (Z.of_nat i))) = true →
    0 ≤ array_get (mtc_snaps (cpu_monotonic (ks m))) i ≤ 2 ^ 48 - 1.

(** [pmi_changes k k']: [k'] comes from [k] by stores to the core's [mt_cpu]
    and to [mt_pmis] and by calls of the two foreign functions of the handler,
    and by nothing else. *)
Inductive pmi_changes : kstate HW → kstate HW → Prop :=
| pmi_changes_refl k : pmi_changes k k
| pmi_changes_mtc k c : pmi_changes k (set_mtc c k)
| pmi_changes_pmis k n : pmi_changes k (set_pmis n k)
| pmi_changes_update_count k ctr : pmi_changes k (update_count_effect ctr k)
| pmi_changes_kpc k state : pmi_changes k (kpc_pmi_effect state k)
| pmi_changes_trans k1 k2 k3 :
    pmi_changes k1 k2 → pmi_changes k2 k3 → pmi_changes k1 k3.

(** The events the handler may log for the interrupt context [state]. *)
Inductive pmi_event (state : Z) : event → Prop :=
| pmi_event_status : pmi_event state (EvRdmsr GLOBAL_STATUS)
| pmi_event_update ctr : pmi_event state (EvUpdateCount ctr)
| pmi_event_kpc : pmi_event state (EvKpcPmi state).

End Statements.

Section LogVocabulary.
Context {HW : Type} `{!Platform HW}.

(** The registers the file has a [wrmsr64] for. *)
Definition written_registers : list Z :=
  [PMC_FIXED_WR 0; PMC_FIXED_WR 1; PMC_FIXED_WR 2; FIXED_CTR_CTRL; GLOBAL_CTRL].

(** An event that is not a write to a register outside [written_registers]. *)
Definition tame_event (e : event) : Prop :=
  match e with
  | EvWrmsr msr _ => msr ∈ written_registers
  | _ => True
  end.

(** [logs_only P c]: whatever its outcome, [c] appends to the log, and only
    events that satisfy [P]. *)
Definition logs_only {A} (P : event → Prop) (c : M (machine HW) A) : Prop :=
  ∀ m, ∃ evs : list event,
    log (result_state (c m)) = log m ++ evs ∧ Forall P evs.

(** The version of the architectural performance monitoring that [mt_init]
    reads: the low byte of [cpuinfo[0]] for leaf 0xA. *)
Definition pmc_version (h : HW) : Z := array_get (hw_cpuid 0xA h) 0 mod 256.

End LogVocabulary.

(** ** A simulated platform

    A machine to run the model on: the registers are a function from register
    number to content, the fixed counter [ctr] is read by [rdpmc] from the
    register it is written to, and the foreign functions are the simplest ones
    that satisfy [foreign_frame]. *)
Module Sim.

Definition regs : Type := Z → Z.

Definition FIXED_CTR0 : Z := 0x309.

Definition rdmsr (msr : Z) (h : regs) : Z := h msr.

Definition wrmsr (msr val : Z) (h : regs) : regs :=
  λ r, if r =? msr then val else h r.

Definition rdpmc (sel : Z) (h : regs) : Z := h (FIXED_CTR0 + Z.land sel 3).

(** Leaf 0xA with version 4 of the architectural performance monitoring. *)
Definition cpuid (leaf : Z) (h : regs) : list Z := [0x07300404; 0; 0; 0x603].

Definition update_count (ctr : Z) (k : kstate regs) : kstate regs :=
  if 0 <=? ctr
  then set_mtc (set_snap (Z.to_nat ctr) (rdpmc (PMC_FIXED_RD ctr) (hw k))
                         (cpu_monotonic k)) k
  else k.

Definition update_fixed_counts (k : kstate regs) : kstate regs :=
  update_count 2 (update_count 1 (update_count 0 k)).

#[local] Instance platform : Platform regs := {|
  MSR_IA32_PERF_FIXED_CTR0 := FIXED_CTR0;
  hw_rdmsr := rdmsr;
  hw_wrmsr := wrmsr;
  hw_rdpmc := rdpmc;
  hw_cpuid := cpuid;
  update_count_effect := update_count;
  update_fixed_counts_effect := update_fixed_counts;
  kpc_pmi_effect := λ _ k, k
|}.

(** The same machine with version 1 in leaf 0xA: too old for the driver. *)
Definition platform_v1 : Platform regs := {|
  MSR_IA32_PERF_FIXED_CTR0 := FIXED_CTR0;
  hw_rdmsr := rdmsr;
  hw_wrmsr := wrmsr;
  hw_rdpmc := rdpmc;
  hw_cpuid := λ _ _, [0x0701; 0; 0; 0];
  update_count_effect := update_count;
  update_fixed_counts_effect := update_fixed_counts;
  kpc_pmi_effect := λ _ k, k
|}.

(** Registers that hold [v] in [GLOBAL_STATUS] and 0 elsewhere. *)
Definition status_regs (v : Z) : regs := wrmsr GLOBAL_STATUS v (λ _, 0).

(** A core with the given flags, overflow status, counts and snapshots. *)
Definition core (supported intrs : bool) (status : Z) (counts snaps : list Z)
  : machine regs :=
  Machine (KState (status_regs status) supported intrs (MtCpu counts snaps) 0 supported) [].

End Sim.

(** * Properties *)

(** ** Arithmetic of the constants *)

Lemma wrap64_small (z : Z) : 0 ≤ z < 2 ^ 64 → wrap64 z = z.
Proof. intros Hz. unfold wrap64. now apply Z.mod_small. Qed.

Lemma wrap64_range (z : Z) : 0 ≤ wrap64 z < 2 ^ 64.
Proof. unfold wrap64. now apply Z.mod_pos_bound. Qed.

Lemma CTR_MAX_eq : CTR_MAX = 2 ^ 48 - 1.
Proof. reflexivity. Qed.

Lemma CONFIGURABLE_OVF_MASK_eq : CONFIGURABLE_OVF_MASK = 15.
Proof. reflexivity. Qed.

Lemma CTR_FIX_POS_eq (i : nat) :
  (i < MT_CORE_NFIXED)%nat → CTR_FIX_POS (Z.of_nat i) = 2 ^ (32 + Z.of_nat i).
Proof.
  unfold MT_CORE_NFIXED. intros Hi.
  destruct i as [|[|[|i]]]; [reflexivity | reflexivity | reflexivity | lia].
Qed.

(** Masking with a single bit tests that bit. *)
Lemma land_pow2 (a n : Z) :
  0 ≤ n → Z.land a (2 ^ n) = if Z.testbit a n then 2 ^ n else 0.
Proof.
  intros Hn. apply Z.bits_inj'. intros k Hk.
  rewrite Z.land_spec, Z.pow2_bits_eqb by assumption.
  destruct (Z.eqb_spec n k) as [-> | Hne].
  - destruct (Z.testbit a k) eqn:Hb; simpl.
    + now rewrite Z.pow2_bits_true.
    + now rewrite Z.bits_0.
  - rewrite andb_false_r.
    destruct (Z.testbit a n).
    + rewrite Z.pow2_bits_false; [reflexivity | assumption].
    + now rewrite Z.bits_0.
Qed.

Lemma nonzero_land_pow2 (a n : Z) :
  0 ≤ n → nonzero (Z.land a (2 ^ n)) = Z.testbit a n.
Proof.
  intros Hn. rewrite land_pow2 by assumption. unfold nonzero.
  destruct (Z.testbit a n); [|reflexivity].
  assert (0 < 2 ^ n) by (apply Z.pow_pos_nonneg; lia).
  destruct (Z.eqb_spec (2 ^ n) 0); [lia | reflexivity].
Qed.

(** The handler's test of counter [i] reads status bit [32 + i]. *)
Lemma fixed_ovf_test (status : Z) (i : nat) :
  (i < MT_CORE_NFIXED)%nat →
  nonzero (Z.land status (CTR_FIX_POS (Z.of_nat i)))
  = Z.testbit status (32 + Z.of_nat i).
Proof.
  intros Hi. rewrite CTR_FIX_POS_eq by assumption.
  apply nonzero_land_pow2. lia.
Qed.

(** The handler's last test reads status bits 0 to 3. *)
Lemma configurable_ovf_test (status : Z) :
  nonzero (Z.land status CONFIGURABLE_OVF_MASK)
  = Z.testbit status 0 || Z.testbit status 1
    || Z.testbit status 2 || Z.testbit status 3.
Proof.
  rewrite CONFIGURABLE_OVF_MASK_eq. change 15 with (Z.ones 4).
  rewrite Z.land_ones by lia. unfold nonzero.
  rewrite <- (Z.land_ones status 4) by lia.
  destruct (Z.eqb_spec (Z.land status (Z.ones 4)) 0) as [H0|Hne]; cbn [negb].
  - assert (Hb : ∀ k, 0 ≤ k < 4 → Z.testbit status k = false).
    { intros k Hk.
      assert (Hk' : Z.testbit (Z.land status (Z.ones 4)) k = false)
        by (rewrite H0; apply Z.bits_0).
      rewrite Z.land_spec, Z.ones_spec_low in Hk' by lia.
      now rewrite andb_true_r in Hk'. }
    rewrite !Hb by lia. reflexivity.
  - destruct (Z.testbit status 0) eqn:B0; [reflexivity|].
    destruct (Z.testbit status 1) eqn:B1; [reflexivity|].
    destruct (Z.testbit status 2) eqn:B2; [reflexivity|].
    destruct (Z.testbit status 3) eqn:B3; [reflexivity|].
    exfalso. apply Hne. apply Z.bits_inj'. intros k Hk.
    rewrite Z.land_spec, Z.bits_0.
    destruct (Z_lt_le_dec k 4) as [Hlt|Hge].
    + assert (Hc : k = 0 ∨ k = 1 ∨ k = 2 ∨ k = 3) by lia.
      destruct Hc as [-> | [-> | [-> | ->]]];
        [rewrite B0 | rewrite B1 | rewrite B2 | rewrite B3]; reflexivity.
    + rewrite Z.ones_spec_high by lia. apply andb_false_r.
Qed.

Lemma pmi_prior_in_range (s : Z) :
  0 ≤ s ≤ 2 ^ 48 - 1 → pmi_prior s = 2 ^ 48 - 1 - s.
Proof.
  intros Hs. unfold pmi_prior. rewrite CTR_MAX_eq. apply wrap64_small. lia.
Qed.

Lemma pmi_wrapped_in_range (s : Z) :
  0 ≤ s ≤ 2 ^ 48 - 1 → pmi_wrapped s = (2 ^ 48 - 1 - s) + 1.
Proof.
  intros Hs. unfold pmi_wrapped. rewrite pmi_prior_in_range by assumption.
  apply wrap64_small. lia.
Qed.

(** A snapshot above [CTR_MAX] makes the subtraction wrap around and leaves
    [prior] above [CTR_MAX]. *)
Lemma pmi_prior_out_of_range (s : Z) :
  2 ^ 48 - 1 < s < 2 ^ 64 → CTR_MAX < pmi_prior s.
Proof.
  intros Hs. unfold pmi_prior, wrap64. rewrite CTR_MAX_eq.
  replace (2 ^ 48 - 1 - s) with ((2 ^ 64 + 2 ^ 48 - 1 - s) + (-1) * 2 ^ 64) by ring.
  rewrite Z.mod_add by lia. rewrite Z.mod_small by lia. lia.
Qed.

(** ** Running the monad *)

Lemma bind_Done {S A B} (c : M S A) (f : A → M S B) (s s' : S) (a : A) :
  c s = Done a s' → (c ≫= f) s = f a s'.
Proof. intros H. unfold mbind, M_bind. now rewrite H. Qed.

Lemma bind_Halt {S A B} (c : M S A) (f : A → M S B) (s s' : S) (e : fault) :
  c s = Halt e s' → (c ≫= f) s = Halt e s'.
Proof. intros H. unfold mbind, M_bind. now rewrite H. Qed.

(** Unfolds the primitives of the monad and computes a run. *)
Ltac run_prims :=
  unfold rdmsr64, wrmsr64, rdpmc, do_cpuid, ml_get_interrupts_enabled,
    ml_set_interrupts_enabled, mt_mtc_update_count, mt_mtc_update_fixed_counts,
    kpc_pmi_handler, lapic_set_pmi_func, panic, assert, emit, modify_ks, get_ks,
    mbind, M_bind, mret, M_ret; cbn.

Section CounterAccess.
Context {HW : Type} `{!Platform HW}.

(** ** Counter register access *)

(** C9: while the feature flag is unset, [mt_core_snap] returns 0 and
    [mt_core_set_snap] does nothing, for every index, valid or not: the flag is
    tested before the index, so an invalid index does not halt the core. *)
Theorem unsupported_access_is_silent (m : machine HW) (ctr count : Z) :
  mt_core_supported (ks m) = false →
  mt_core_snap ctr m = Done 0 m ∧ mt_core_set_snap ctr count m = Done tt m.
Proof.
  intros Hflag. unfold mt_core_snap, mt_core_set_snap. run_prims.
  rewrite Hflag. cbn. split; reflexivity.
Qed.

(** C4, as the code has it: with the feature flag set, an index outside
    {0,1,2} halts the core with a panic that names the operation and the
    index, in [mt_core_snap] and in [mt_core_set_snap]; no register is read or
    written first. *)
Theorem invalid_index_panics_when_supported (m : machine HW) (ctr count : Z) :
  mt_core_supported (ks m) = true →
  ctr ≠ 0 → ctr ≠ 1 → ctr ≠ 2 →
  mt_core_snap ctr m
  = Halt (Panic "monotonic: invalid core counter read: %u" ctr) m
  ∧ mt_core_set_snap ctr count m
    = Halt (Panic "monotonic: invalid core counter write: %u" ctr) m.
Proof.
  intros Hflag H0 H1 H2. unfold mt_core_snap, mt_core_set_snap. run_prims.
  rewrite Hflag. cbn.
  destruct ctr as [|[p|p|]|p]; try congruence;
    destruct p; try congruence; split; reflexivity.
Qed.

End CounterAccess.

Section PowerTransitions.
Context {HW : Type} `{!Platform HW}.

(** ** Core startup *)

Lemma core_up_run (m : machine HW) :
  mt_core_supported (ks m) = true →
  interrupts_enabled (ks m) = false →
  core_up m
  = Done tt (Machine
      (set_hw (core_up_hw (mtc_snaps (cpu_monotonic (ks m))) (hw (ks m))) (ks m))
      (log m ++ core_up_writes (mtc_snaps (cpu_monotonic (ks m))))).
Proof.
  intros Hflag Hintr. destruct m as [[h sup en mtc pmis pf] l]. cbn in *. subst.
  cbv -[hw_wrmsr PMC_FIXED_WR array_get GLOBAL_CTRL GLOBAL_CTRL_FIXED_EN
        FIXED_CTR_CTRL FIXED_CTR_CTRL_INIT app].
  now rewrite <- !app_assoc.
Qed.

Lemma FIXED_CTR_CTRL_INIT_bits (i : nat) :
  (i < MT_CORE_NFIXED)%nat →
  Z.testbit FIXED_CTR_CTRL_INIT (4 * Z.of_nat i) = true
  ∧ Z.testbit FIXED_CTR_CTRL_INIT (4 * Z.of_nat i + 1) = true
  ∧ Z.testbit FIXED_CTR_CTRL_INIT (4 * Z.of_nat i + 2) = false
  ∧ Z.testbit FIXED_CTR_CTRL_INIT (4 * Z.of_nat i + 3) = true.
Proof.
  unfold MT_CORE_NFIXED. intros Hi.
  destruct i as [|[|[|i]]]; [repeat split .. | lia].
Qed.

Lemma mt_cpu_up_run (m : machine HW) :
  mt_core_supported (ks m) = true →
  mt_cpu_up m
  = Done tt (Machine
      (set_hw (core_up_hw (mtc_snaps (cpu_monotonic (ks m))) (hw (ks m))) (ks m))
      (log m ++ [EvSetInterrupts false]
             ++ core_up_writes (mtc_snaps (cpu_monotonic (ks m)))
             ++ [EvSetInterrupts (interrupts_enabled (ks m))])).
Proof.
  intros Hflag. unfold mt_cpu_up.
  set (m1 := Machine (set_interrupts false (ks m)) (log m ++ [EvSetInterrupts false])).
  assert (H1 : ml_set_interrupts_enabled false m = Done (interrupts_enabled (ks m)) m1)
    by reflexivity.
  rewrite (bind_Done _ _ _ _ _ H1).
  assert (H2 := core_up_run m1 Hflag eq_refl).
  rewrite (bind_Done _ _ _ _ _ H2).
  destruct m as [[h sup en mtc pmis pf] l].
  cbv -[core_up_hw core_up_writes app].
  now rewrite <- !app_assoc.
Qed.

(** C8: with the feature supported, core startup writes the three snapshots
    into the fixed counters 0, 1 and 2, then the control register (for each
    counter: both ring bits and the interrupt bit set, the any-thread bit
    clear), then the global enable register with exactly the three fixed
    counter bits, in this order; [mt_cpu_up] does this with interrupts
    disabled and ends in the interrupt-enabled state it was entered with. *)
Theorem cpu_up_restores_then_enables (m : machine HW) :
  mt_core_supported (ks m) = true →
  let snaps := mtc_snaps (cpu_monotonic (ks m)) in
  (interrupts_enabled (ks m) = false →
   core_up m = Done tt (Machine (set_hw (core_up_hw snaps (hw (ks m))) (ks m))
                                (log m ++ core_up_writes snaps)))
  ∧ mt_cpu_up m
    = Done tt (Machine (set_hw (core_up_hw snaps (hw (ks m))) (ks m))
                       (log m ++ [EvSetInterrupts false] ++ core_up_writes snaps
                              ++ [EvSetInterrupts (interrupts_enabled (ks m))]))
  ∧ (∀ i : nat, (i < MT_CORE_NFIXED)%nat →
       Z.testbit FIXED_CTR_CTRL_INIT (4 * Z.of_nat i) = true
       ∧ Z.testbit FIXED_CTR_CTRL_INIT (4 * Z.of_nat i + 1) = true
       ∧ Z.testbit FIXED_CTR_CTRL_INIT (4 * Z.of_nat i + 2) = false
       ∧ Z.testbit FIXED_CTR_CTRL_INIT (4 * Z.of_nat i + 3) = true)
  ∧ GLOBAL_CTRL_FIXED_EN = 2 ^ 32 + 2 ^ 33 + 2 ^ 34.
Proof.
  intros Hflag snaps. split; [|split; [|split]].
  - intros Hintr. now apply core_up_run.
  - now apply mt_cpu_up_run.
  - apply FIXED_CTR_CTRL_INIT_bits.
  - reflexivity.
Qed.

End PowerTransitions.

Section Handler.
Context {HW : Type} `{!Platform HW}.

(** ** Overflow interrupt handler: one counter *)

Lemma pmi_fold_run (i : nat) (m : machine HW) :
  pmi_fold i m
  = if pmi_prior (array_get (mtc_snaps (cpu_monotonic (ks m))) i) <=? CTR_MAX
    then Done tt (Machine (folded i (ks m)) (log m))
    else Halt (AssertFailed "prior <= CTR_MAX") m.
Proof.
  unfold pmi_fold, assert, modify_ks, get_ks, mbind, M_bind.
  destruct (pmi_prior _ <=? CTR_MAX); [|reflexivity].
  destruct m as [k l]. reflexivity.
Qed.

Lemma pmi_fixed_run (status : Z) (i : nat) (m : machine HW) :
  pmi_fixed status i m
  = if nonzero (Z.land status (CTR_FIX_POS (Z.of_nat i))) then
      if pmi_prior (array_get (mtc_snaps (cpu_monotonic (ks m))) i) <=? CTR_MAX
      then Done tt (Machine (update_count_effect (Z.of_nat i) (folded i (ks m)))
                            (log m ++ [EvUpdateCount (Z.of_nat i)]))
      else Halt (AssertFailed "prior <= CTR_MAX") m
    else Done tt m.
Proof.
  unfold pmi_fixed. destruct (nonzero _); [|reflexivity].
  unfold mbind at 1. unfold M_bind. rewrite pmi_fold_run.
  destruct (pmi_prior _ <=? CTR_MAX); reflexivity.
Qed.

Lemma array_get_Some (a : list Z) (i : nat) (x : Z) :
  a !! i = Some x → array_get a i = x.
Proof. intros H0. unfold array_get. now rewrite H0. Qed.

Lemma pmi_prior_passes (s : Z) :
  0 ≤ s ≤ 2 ^ 48 - 1 → (pmi_prior s <=? CTR_MAX) = true.
Proof.
  intros Hs. rewrite pmi_prior_in_range, CTR_MAX_eq by assumption.
  apply Z.leb_le. lia.
Qed.

Lemma pmi_prior_fails (s : Z) :
  2 ^ 48 - 1 < s < 2 ^ 64 → (pmi_prior s <=? CTR_MAX) = false.
Proof.
  intros Hs. apply Z.leb_gt. now apply pmi_prior_out_of_range.
Qed.

(** C5, as the code has it: the snapshot 2^48 - 5 is 4 below the maximum
    2^48 - 1, so the wrap delta is 4 + 1 = 5: the handler adds 5 to
    accumulated[i] and sets snapshot[i] to 0. *)
Theorem pmi_overflow_five_below_wrap
    (status : Z) (i : nat) (m : machine HW) (c : Z) :
  (i < MT_CORE_NFIXED)%nat →
  Z.testbit status (32 + Z.of_nat i) = true →
  mtc_snaps (cpu_monotonic (ks m)) !! i = Some (2 ^ 48 - 5) →
  mtc_counts (cpu_monotonic (ks m)) !! i = Some c →
  let mtc' := MtCpu (<[i := wrap64 (c + 5)]> (mtc_counts (cpu_monotonic (ks m))))
                    (<[i := 0]> (mtc_snaps (cpu_monotonic (ks m)))) in
  pmi_prior (2 ^ 48 - 5) = 4
  ∧ pmi_wrapped (2 ^ 48 - 5) = 5
  ∧ pmi_fold i m = Done tt (Machine (set_mtc mtc' (ks m)) (log m))
  ∧ pmi_fixed status i m
    = mt_mtc_update_count (Z.of_nat i) (Machine (set_mtc mtc' (ks m)) (log m))
  ∧ mtc_counts mtc' !! i = Some (wrap64 (c + 5))
  ∧ mtc_snaps mtc' !! i = Some 0
  ∧ (0 ≤ c → c + 5 < 2 ^ 64 → wrap64 (c + 5) = c + 5).
Proof.
  intros Hi Hbit Hs Hc mtc'.
  assert (Hfold : pmi_fold i m = Done tt (Machine (set_mtc mtc' (ks m)) (log m))).
  { rewrite pmi_fold_run. rewrite (array_get_Some _ _ _ Hs).
    change (pmi_prior (2 ^ 48 - 5) <=? CTR_MAX) with true.
    unfold folded. cbn zeta.
    rewrite (array_get_Some _ _ _ Hs), (array_get_Some _ _ _ Hc).
    change (pmi_wrapped (2 ^ 48 - 5)) with 5. reflexivity. }
  split; [reflexivity|]. split; [reflexivity|].
  split; [exact Hfold|]. split; [|split; [|split]].
  - unfold pmi_fixed. rewrite fixed_ovf_test, Hbit by assumption.
    now rewrite (bind_Done _ _ _ _ _ Hfold).
  - apply list_lookup_insert_eq. now apply lookup_lt_Some in Hc.
  - apply list_lookup_insert_eq. now apply lookup_lt_Some in Hs.
  - intros Hc0 Hlt. apply wrap64_small. lia.
Qed.

(** C3, as the code has it: the assertion bounds the distance to the maximum,
    [CTR_MAX - snapshot], before the 1 for the wrap is added.  For a snapshot
    of at most 2^48 - 1 it holds and the delta that is folded lies between 1
    and 2^48; for a larger snapshot it fails and the core halts in the state
    the handler found, nothing folded. *)
Theorem pmi_assert_bounds_distance_to_max
    (status : Z) (i : nat) (m : machine HW) (s : Z) :
  (i < MT_CORE_NFIXED)%nat →
  Z.testbit status (32 + Z.of_nat i) = true →
  mtc_snaps (cpu_monotonic (ks m)) !! i = Some s →
  0 ≤ s < 2 ^ 64 →
  (s ≤ 2 ^ 48 - 1 →
     pmi_prior s ≤ 2 ^ 48 - 1 ∧ 1 ≤ pmi_wrapped s ≤ 2 ^ 48
     ∧ pmi_fold i m = Done tt (Machine (folded i (ks m)) (log m)))
  ∧ (2 ^ 48 - 1 < s →
     2 ^ 48 - 1 < pmi_prior s
     ∧ pmi_fixed status i m = Halt (AssertFailed "prior <= CTR_MAX") m).
Proof.
  intros Hi Hbit Hs Hrange. split.
  - intros Hle. rewrite pmi_prior_in_range, pmi_wrapped_in_range by lia.
    split; [lia|]. split; [lia|].
    rewrite pmi_fold_run, (array_get_Some _ _ _ Hs).
    now rewrite pmi_prior_passes by lia.
  - intros Hgt. split.
    + rewrite <- CTR_MAX_eq. apply pmi_prior_out_of_range. lia.
    + rewrite pmi_fixed_run, fixed_ovf_test, Hbit by assumption.
      rewrite (array_get_Some _ _ _ Hs).
      now rewrite pmi_prior_fails by lia.
Qed.

(** ** Overflow interrupt handler: the whole function *)

Lemma mt_pmi_x86_64_entry (state : Z) (m : machine HW) :
  mt_pmi_x86_64 state m
  = if interrupts_enabled (ks m)
    then Halt (AssertFailed "ml_get_interrupts_enabled() == FALSE") m
    else pmi_rest (pending_status m) state
           (Machine (set_pmis (wrap64 (mt_pmis (ks m) + 1)) (ks m))
                    (log m ++ [EvRdmsr GLOBAL_STATUS])).
Proof.
  destruct m as [k l]. unfold mt_pmi_x86_64, pending_status, pmi_rest.
  unfold ml_get_interrupts_enabled, assert, rdmsr64, emit, modify_ks, get_ks.
  unfold mbind, M_bind, mret, M_ret. cbn [ks log].
  destruct (interrupts_enabled k); reflexivity.
Qed.

Lemma pmi_rest_run (status state : Z) (m : machine HW) :
  pmi_rest status state m
  = match for_each (pmi_fixed status) (seq 0 MT_CORE_NFIXED) m with
    | Done _ m2 =>
        if nonzero (Z.land status CONFIGURABLE_OVF_MASK)
        then Done 0 (Machine (kpc_pmi_effect state (ks m2))
                             (log m2 ++ [EvKpcPmi state]))
        else Done 0 m2
    | Halt f m2 => Halt f m2
    end.
Proof.
  unfold pmi_rest. unfold mbind at 1. unfold M_bind.
  destruct (for_each _ _ m) as [[] m2 | f m2]; [|reflexivity].
  destruct (nonzero _); reflexivity.
Qed.

(** The loop, whatever its outcome: it logs calls of [mt_mtc_update_count]
    only, changes the kernel state as [pmi_changes] allows, and halts on a
    failed assertion only. *)
Lemma pmi_loop_effects (status : Z) (l : list nat) (m : machine HW) :
  let r := for_each (pmi_fixed status) l m in
  (∃ evs : list event, log (result_state r) = log m ++ evs
          ∧ Forall (λ e, ∃ ctr, e = EvUpdateCount ctr) evs)
  ∧ pmi_changes (ks m) (ks (result_state r))
  ∧ (∀ f m', r = Halt f m' → ∃ cond, f = AssertFailed cond).
Proof.
  revert m. induction l as [|i l IH]; intros m; cbn zeta.
  - cbn. split; [|split; [constructor | discriminate]].
    exists []. split; [now rewrite app_nil_r | constructor].
  - cbn [for_each]. unfold mbind, M_bind. rewrite pmi_fixed_run.
    destruct (nonzero _).
    + destruct (pmi_prior _ <=? CTR_MAX).
      * match goal with |- context [for_each _ l ?m1] =>
          destruct (IH m1) as [[evs [Hlog Hevs]] [Hch Hhalt]] end.
        cbn [log ks] in *. split; [|split].
        -- exists (EvUpdateCount (Z.of_nat i) :: evs). split.
           ++ rewrite Hlog. now rewrite <- app_assoc.
           ++ constructor; [now exists (Z.of_nat i) | assumption].
        -- eapply pmi_changes_trans; [|exact Hch].
           eapply pmi_changes_trans; [|apply pmi_changes_update_count].
           unfold folded. apply pmi_changes_mtc.
        -- exact Hhalt.
      * cbn. split; [|split; [constructor|]].
        -- exists []. split; [now rewrite app_nil_r | constructor].
        -- intros f m' [= <- _]. eauto.
    + apply IH.
Qed.

Lemma array_get_insert_ne (a : list Z) (i j : nat) (v : Z) :
  i ≠ j → array_get (<[i := v]> a) j = array_get a j.
Proof. intros Hne. unfold array_get. now rewrite list_lookup_insert_ne. Qed.

(** The loop returns when the snapshots it meets are counter values; it then
    has called [mt_mtc_update_count] once for each overflowed counter, in
    order of the counters. *)
Lemma pmi_loop_returns (status : Z) (l : list nat) (m : machine HW) :
  foreign_frame HW →
  NoDup l →
  (∀ i : nat, i ∈ l →
     nonzero (Z.land status (CTR_FIX_POS (Z.of_nat i))) = true →
     0 ≤ array_get (mtc_snaps (cpu_monotonic (ks m))) i ≤ 2 ^ 48 - 1) →
  ∃ m', for_each (pmi_fixed status) l m = Done tt m'
        ∧ log m' = log m ++ update_calls status l.
Proof.
  intros Hframe. revert m. induction l as [|i l IH]; intros m Hnd Hok.
  - exists m. split; [reflexivity|]. cbn. now rewrite app_nil_r.
  - apply NoDup_cons in Hnd as [Hnotin Hnd].
    cbn [for_each]. unfold mbind, M_bind. rewrite pmi_fixed_run.
    unfold update_calls. cbn [flat_map]. fold (update_calls status l).
    destruct (nonzero (Z.land status (CTR_FIX_POS (Z.of_nat i)))) eqn:Hbit.
    + rewrite pmi_prior_passes by (apply Hok; [left | assumption]).
      match goal with |- context [for_each _ l ?m1] =>
        destruct (IH m1 Hnd) as [m' [Hrun Hlog]] end.
      * intros j Hj Hbj. cbn [ks].
        unfold array_get. rewrite (update_count_snaps Hframe).
        -- unfold folded. cbn. rewrite list_lookup_insert_ne.
           ++ apply Hok; [now right | assumption].
           ++ intros ->. contradiction.
        -- intros Heq. apply Nat2Z.inj in Heq. subst. contradiction.
      * exists m'. split; [exact Hrun|]. rewrite Hlog. cbn [log].
        now rewrite <- app_assoc.
    + destruct (IH m Hnd) as [m' [Hrun Hlog]].
      * intros j Hj Hbj. apply Hok; [now right | assumption].
      * exists m'. split; [exact Hrun | exact Hlog].
Qed.

Lemma kpc_forwards_app (l1 l2 : list event) :
  kpc_forwards (l1 ++ l2) = kpc_forwards l1 ++ kpc_forwards l2.
Proof. apply flat_map_app. Qed.

Lemma kpc_forwards_update_calls (status : Z) (l : list nat) :
  kpc_forwards (update_calls status l) = [].
Proof.
  induction l as [|i l IH]; [reflexivity|].
  unfold update_calls. cbn [flat_map]. fold (update_calls status l).
  rewrite kpc_forwards_app, IH.
  destruct (nonzero _); reflexivity.
Qed.

Lemma msr_writes_app (l1 l2 : list event) :
  msr_writes (l1 ++ l2) = msr_writes l1 ++ msr_writes l2.
Proof. apply flat_map_app. Qed.

Lemma seq_fixed_NoDup : NoDup (seq 0 MT_CORE_NFIXED).
Proof. apply NoDup_ListNoDup, List.seq_NoDup. Qed.

Lemma seq_fixed_lt (i : nat) : i ∈ seq 0 MT_CORE_NFIXED → (i < MT_CORE_NFIXED)%nat.
Proof. intros Hin. apply list_elem_of_In, List.in_seq in Hin. lia. Qed.

(** The handler in interrupt context, with snapshots in range: it returns 0
    and has logged the status read, the calls of [mt_mtc_update_count] and,
    when one of the low four status bits is set, one call of
    [kpc_pmi_handler]. *)
Lemma mt_pmi_x86_64_returns (state : Z) (m : machine HW) :
  foreign_frame HW →
  interrupts_enabled (ks m) = false →
  pmi_snaps_in_range m →
  ∃ m', mt_pmi_x86_64 state m = Done 0 m'
        ∧ log m' = log m ++ [EvRdmsr GLOBAL_STATUS]
                   ++ update_calls (pending_status m) (seq 0 MT_CORE_NFIXED)
                   ++ (if nonzero (Z.land (pending_status m) CONFIGURABLE_OVF_MASK)
                       then [EvKpcPmi state] else []).
Proof.
  intros Hframe Hintr Hok. rewrite mt_pmi_x86_64_entry, Hintr.
  set (status := pending_status m).
  set (m1 := Machine _ _).
  destruct (pmi_loop_returns status (seq 0 MT_CORE_NFIXED) m1 Hframe seq_fixed_NoDup)
    as [m2 [Hrun Hlog]].
  { intros i Hin Hbit. apply (Hok i); [now apply seq_fixed_lt | exact Hbit]. }
  unfold pmi_rest. rewrite (bind_Done _ _ _ _ _ Hrun).
  destruct (nonzero (Z.land status CONFIGURABLE_OVF_MASK)).
  - eexists. split; [reflexivity|]. cbn [log]. rewrite Hlog. subst m1. cbn [log].
    now rewrite <- !app_assoc.
  - eexists. split; [reflexivity|]. rewrite Hlog. subst m1. cbn [log].
    now rewrite app_nil_r, <- !app_assoc.
Qed.

Lemma folded_in_range (i : nat) (k : kstate HW) :
  0 ≤ array_get (mtc_snaps (cpu_monotonic k)) i ≤ 2 ^ 48 - 1 →
  folded i k = set_mtc (fold_overflow i (cpu_monotonic k)) k.
Proof.
  intros Hs. unfold folded, fold_overflow. cbn zeta.
  now rewrite pmi_wrapped_in_range.
Qed.

(** One iteration of the loop does what the spec's step for the counter
    says, when the snapshot of an overflowed counter is a counter value. *)
Lemma pmi_fixed_step (status : Z) (i : nat) (m : machine HW) :
  (i < MT_CORE_NFIXED)%nat →
  (Z.testbit status (32 + Z.of_nat i) = true →
   0 ≤ array_get (mtc_snaps (cpu_monotonic (ks m))) i ≤ 2 ^ 48 - 1) →
  pmi_fixed status i m
  = Done tt (Machine (pmi_counter_step status (ks m) i)
               (log m ++ (if Z.testbit status (32 + Z.of_nat i)
                          then [EvUpdateCount (Z.of_nat i)] else []))).
Proof.
  intros Hi Hs. rewrite pmi_fixed_run, fixed_ovf_test by assumption.
  unfold pmi_counter_step.
  destruct (Z.testbit status (32 + Z.of_nat i)).
  - rewrite pmi_prior_passes by now apply Hs.
    now rewrite folded_in_range by now apply Hs.
  - destruct m as [k l]. cbn. now rewrite app_nil_r.
Qed.

(** C1, as the code has it: the handler reads the status from
    [GLOBAL_STATUS] and goes through the fixed counters 0, 1, 2 in this order;
    for each one whose status bit 32 + i is set and whose snapshot, when the
    loop reaches it, is at most 2^48 - 1, it computes the wrap delta
    (2^48 - 1 - snapshot[i]) + 1, replaces accumulated[i] by accumulated[i] +
    delta modulo 2^64, sets snapshot[i] to 0 and then calls
    [mt_mtc_update_count] for i on the record in this state; a counter whose
    bit is clear is left alone.  The sum is accumulated[i] + delta itself
    unless it reaches 2^64, and the snapshot the handler returns is the one
    the call leaves. *)
Theorem pmi_handler_folds_overflowed_counters (state : Z) (m : machine HW) :
  interrupts_enabled (ks m) = false →
  let status := pending_status m in
  let k0 := set_pmis (wrap64 (mt_pmis (ks m) + 1)) (ks m) in
  let k1 := pmi_counter_step status k0 0 in
  let k2 := pmi_counter_step status k1 1 in
  let k3 := pmi_counter_step status k2 2 in
  (Z.testbit status 32 = true →
   0 ≤ array_get (mtc_snaps (cpu_monotonic k0)) 0 ≤ 2 ^ 48 - 1) →
  (Z.testbit status 33 = true →
   0 ≤ array_get (mtc_snaps (cpu_monotonic k1)) 1 ≤ 2 ^ 48 - 1) →
  (Z.testbit status 34 = true →
   0 ≤ array_get (mtc_snaps (cpu_monotonic k2)) 2 ≤ 2 ^ 48 - 1) →
  mt_pmi_x86_64 state m
  = Done 0
      (Machine
         (if nonzero (Z.land status CONFIGURABLE_OVF_MASK)
          then kpc_pmi_effect state k3 else k3)
         (log m ++ [EvRdmsr GLOBAL_STATUS]
                ++ (if Z.testbit status 32 then [EvUpdateCount 0] else [])
                ++ (if Z.testbit status 33 then [EvUpdateCount 1] else [])
                ++ (if Z.testbit status 34 then [EvUpdateCount 2] else [])
                ++ (if nonzero (Z.land status CONFIGURABLE_OVF_MASK)
                    then [EvKpcPmi state] else [])))
  ∧ (∀ (i : nat) (c : mt_cpu) (cnt s : Z),
       mtc_counts c !! i = Some cnt →
       mtc_snaps c !! i = Some s →
       mtc_counts (fold_overflow i c) !! i
       = Some (wrap64 (cnt + ((2 ^ 48 - 1 - s) + 1)))
       ∧ mtc_snaps (fold_overflow i c) !! i = Some 0
       ∧ (∀ j : nat, j ≠ i →
            mtc_counts (fold_overflow i c) !! j = mtc_counts c !! j
            ∧ mtc_snaps (fold_overflow i c) !! j = mtc_snaps c !! j)
       ∧ (0 ≤ cnt → 0 ≤ s ≤ 2 ^ 48 - 1 → cnt + ((2 ^ 48 - 1 - s) + 1) < 2 ^ 64 →
          wrap64 (cnt + ((2 ^ 48 - 1 - s) + 1)) = cnt + ((2 ^ 48 - 1 - s) + 1))).
Proof.
  intros Hintr status k0 k1 k2 k3 Hs0 Hs1 Hs2. split.
  - rewrite mt_pmi_x86_64_entry, Hintr, pmi_rest_run. fold status. fold k0.
    set (m0 := Machine k0 (log m ++ [EvRdmsr GLOBAL_STATUS])).
    assert (H0 := pmi_fixed_step status 0 m0 ltac:(unfold MT_CORE_NFIXED; lia) Hs0).
    set (m1 := Machine (pmi_counter_step status (ks m0) 0) _) in H0.
    assert (H1 := pmi_fixed_step status 1 m1 ltac:(unfold MT_CORE_NFIXED; lia) Hs1).
    set (m2 := Machine (pmi_counter_step status (ks m1) 1) _) in H1.
    assert (H2 := pmi_fixed_step status 2 m2 ltac:(unfold MT_CORE_NFIXED; lia) Hs2).
    unfold MT_CORE_NFIXED. cbn [seq for_each].
    rewrite (bind_Done _ _ _ _ _ H0), (bind_Done _ _ _ _ _ H1).
    rewrite (bind_Done _ _ _ _ _ H2). cbn [mret M_ret].
    subst m2 m1 m0. cbn [ks log]. fold k1. fold k2. fold k3.
    change (Z.of_nat 0) with 0. change (Z.of_nat 1) with 1.
    change (Z.of_nat 2) with 2.
    change (32 + 0) with 32. change (32 + 1) with 33. change (32 + 2) with 34.
    destruct (nonzero (Z.land status CONFIGURABLE_OVF_MASK)).
    + now rewrite <- !app_assoc.
    + now rewrite app_nil_r, <- !app_assoc.
  - intros i c cnt s Hcnt Hs. unfold fold_overflow. cbn.
    rewrite (array_get_Some _ _ _ Hcnt), (array_get_Some _ _ _ Hs).
    split; [|split; [|split]].
    + apply list_lookup_insert_eq. now apply lookup_lt_Some in Hcnt.
    + apply list_lookup_insert_eq. now apply lookup_lt_Some in Hs.
    + intros j Hj. split; now apply list_lookup_insert_ne.
    + intros Hc0 Hrange Hlt. apply wrap64_small. lia.
Qed.

Lemma pmi_event_update_calls (state : Z) (evs : list event) :
  Forall (λ e, ∃ ctr, e = EvUpdateCount ctr) evs →
  Forall (pmi_event state) evs ∧ msr_writes evs = [].
Proof.
  induction 1 as [|e evs [ctr ->] _ [IH1 IH2]]; [split; [constructor | reflexivity]|].
  split; [constructor; [constructor | assumption] | exact IH2].
Qed.

(** Whatever the foreign functions leave alone of the hardware, the feature
    flag, the interrupt state and the registered handler, [pmi_changes] leaves
    alone. *)
Lemma pmi_changes_frame {X} (f : kstate HW → X) (k k' : kstate HW) :
  (∀ c k, f (set_mtc c k) = f k) →
  (∀ n k, f (set_pmis n k) = f k) →
  (∀ ctr k, f (update_count_effect ctr k) = f k) →
  (∀ state k, f (kpc_pmi_effect state k) = f k) →
  pmi_changes k k' → f k' = f k.
Proof.
  intros Hm Hp Hu Hk. induction 1; try congruence; auto.
Qed.

(** C6: with only the overflow bit of fixed counter 1 set (status bit 33; bits
    32 and 34 and the low four bits clear), one run of the handler folds
    counter 1 and calls [mt_mtc_update_count] for counter 1 only; counts and
    snapshots of counters 0 and 2 are as before, and [kpc_pmi_handler] is not
    called. *)
Theorem pmi_only_fixed_counter_one (state : Z) (m : machine HW) (s c : Z) :
  foreign_frame HW →
  interrupts_enabled (ks m) = false →
  Z.testbit (pending_status m) 33 = true →
  Z.testbit (pending_status m) 32 = false →
  Z.testbit (pending_status m) 34 = false →
  (∀ n, 0 ≤ n < 4 → Z.testbit (pending_status m) n = false) →
  mtc_snaps (cpu_monotonic (ks m)) !! 1%nat = Some s →
  0 ≤ s ≤ 2 ^ 48 - 1 →
  mtc_counts (cpu_monotonic (ks m)) !! 1%nat = Some c →
  let mtc1 :=
    MtCpu (<[1%nat := wrap64 (c + ((2 ^ 48 - 1 - s) + 1))]>
             (mtc_counts (cpu_monotonic (ks m))))
          (<[1%nat := 0]> (mtc_snaps (cpu_monotonic (ks m)))) in
  let k1 := set_mtc mtc1 (set_pmis (wrap64 (mt_pmis (ks m) + 1)) (ks m)) in
  let m' := Machine (update_count_effect 1 k1)
                    (log m ++ [EvRdmsr GLOBAL_STATUS; EvUpdateCount 1]) in
  mt_pmi_x86_64 state m = Done 0 m'
  ∧ (∀ j : nat, j ≠ 1%nat →
       mtc_counts (cpu_monotonic (ks m')) !! j
       = mtc_counts (cpu_monotonic (ks m)) !! j
       ∧ mtc_snaps (cpu_monotonic (ks m')) !! j
         = mtc_snaps (cpu_monotonic (ks m)) !! j)
  ∧ mtc_counts (cpu_monotonic (ks m')) !! 1%nat
    = Some (wrap64 (c + ((2 ^ 48 - 1 - s) + 1)))
  ∧ kpc_forwards (log m') = kpc_forwards (log m).
Proof.
  intros Hframe Hintr B33 B32 B34 Blow Hs Hrange Hc mtc1 k1 m'.
  set (status := pending_status m) in *.
  set (m1 := Machine (set_pmis (wrap64 (mt_pmis (ks m) + 1)) (ks m))
                     (log m ++ [EvRdmsr GLOBAL_STATUS])).
  assert (H0 : pmi_fixed status 0 m1 = Done tt m1).
  { rewrite pmi_fixed_run, fixed_ovf_test by (unfold MT_CORE_NFIXED; lia).
    change (32 + Z.of_nat 0) with 32. now rewrite B32. }
  assert (H1 : pmi_fixed status 1 m1 = Done tt m').
  { rewrite pmi_fixed_run, fixed_ovf_test by (unfold MT_CORE_NFIXED; lia).
    change (32 + Z.of_nat 1) with 33. rewrite B33.
    subst m1. cbn [ks log]. unfold set_pmis at 1. cbn [cpu_monotonic].
    rewrite (array_get_Some _ _ _ Hs), pmi_prior_passes by assumption.
    unfold m', k1, mtc1, folded. cbn [cpu_monotonic set_pmis].
    rewrite (array_get_Some _ _ _ Hs), (array_get_Some _ _ _ Hc).
    rewrite pmi_wrapped_in_range by assumption.
    rewrite <- app_assoc. reflexivity. }
  assert (H2 : pmi_fixed status 2 m' = Done tt m').
  { rewrite pmi_fixed_run, fixed_ovf_test by (unfold MT_CORE_NFIXED; lia).
    change (32 + Z.of_nat 2) with 34. now rewrite B34. }
  assert (Hmask : nonzero (Z.land status CONFIGURABLE_OVF_MASK) = false).
  { rewrite configurable_ovf_test. now rewrite !Blow by lia. }
  assert (Hloop : for_each (pmi_fixed status) (seq 0 MT_CORE_NFIXED) m1 = Done tt m').
  { unfold MT_CORE_NFIXED. cbn [seq for_each].
    rewrite (bind_Done _ _ _ _ _ H0), (bind_Done _ _ _ _ _ H1).
    now rewrite (bind_Done _ _ _ _ _ H2). }
  split; [|split; [|split]].
  - rewrite mt_pmi_x86_64_entry, Hintr. fold status m1. unfold pmi_rest.
    rewrite (bind_Done _ _ _ _ _ Hloop), Hmask. reflexivity.
  - intros j Hj. unfold m'. cbn [ks]. split.
    + rewrite (update_count_counts Hframe). unfold k1, mtc1. cbn.
      now apply list_lookup_insert_ne.
    + rewrite (update_count_snaps Hframe) by (change 1 with (Z.of_nat 1); lia).
      unfold k1, mtc1. cbn. now apply list_lookup_insert_ne.
  - unfold m'. cbn [ks]. rewrite (update_count_counts Hframe).
    unfold k1, mtc1. cbn. apply list_lookup_insert_eq.
    now apply lookup_lt_Some in Hc.
  - unfold m'. cbn [log]. rewrite kpc_forwards_app. cbn. now rewrite app_nil_r.
Qed.

(** C7, as the code has it: the handler forwards the interrupt context to
    [kpc_pmi_handler] when one of the low four status bits, the overflow bits
    of the configurable counters 0 to 3, is set, and then exactly once however
    many of them are set; with all four clear it does not forward, whatever
    the other bits of the status. *)
Theorem pmi_forwards_once_for_low_four_bits (state : Z) (m : machine HW) :
  foreign_frame HW →
  interrupts_enabled (ks m) = false →
  pmi_snaps_in_range m →
  ∃ m', mt_pmi_x86_64 state m = Done 0 m'
        ∧ kpc_forwards (log m')
          = kpc_forwards (log m)
            ++ (if Z.testbit (pending_status m) 0 || Z.testbit (pending_status m) 1
                   || Z.testbit (pending_status m) 2 || Z.testbit (pending_status m) 3
                then [state] else []).
Proof.
  intros Hframe Hintr Hok.
  destruct (mt_pmi_x86_64_returns state m Hframe Hintr Hok) as [m' [Hrun Hlog]].
  exists m'. split; [exact Hrun|].
  rewrite Hlog, !kpc_forwards_app, kpc_forwards_update_calls.
  rewrite configurable_ovf_test.
  destruct (_ || _); cbn; reflexivity.
Qed.

(** C10: the handler writes no hardware register.  Whatever the outcome, it
    logs nothing but the read of the overflow status register, calls of
    [mt_mtc_update_count] and the call of [kpc_pmi_handler], and it changes
    the kernel state only by its stores to the core's [mt_cpu] and to
    [mt_pmis] and through these two calls.  A run that returns returns 0, and
    in interrupt context with snapshots in range the run returns, the status
    read being the first thing it logs. *)
Theorem pmi_writes_no_register (state : Z) (m : machine HW) :
  let r := mt_pmi_x86_64 state m in
  (∃ evs : list event,
     log (result_state r) = log m ++ evs
     ∧ Forall (pmi_event state) evs
     ∧ msr_writes evs = [])
  ∧ pmi_changes (ks m) (ks (result_state r))
  ∧ (∀ v m', r = Done v m' → v = 0)
  ∧ (∀ f m', r = Halt f m' → ∃ cond, f = AssertFailed cond)
  ∧ (foreign_frame HW → interrupts_enabled (ks m) = false → pmi_snaps_in_range m →
     ∃ m' evs, r = Done 0 m' ∧ log m' = log m ++ EvRdmsr GLOBAL_STATUS :: evs).
Proof.
  cbn zeta.
  assert (Hany :
    (∃ evs : list event,
       log (result_state (mt_pmi_x86_64 state m)) = log m ++ evs
       ∧ Forall (pmi_event state) evs ∧ msr_writes evs = [])
    ∧ pmi_changes (ks m) (ks (result_state (mt_pmi_x86_64 state m)))
    ∧ (∀ v m', mt_pmi_x86_64 state m = Done v m' → v = 0)
    ∧ (∀ f m', mt_pmi_x86_64 state m = Halt f m' → ∃ cond, f = AssertFailed cond)).
  { rewrite mt_pmi_x86_64_entry.
    destruct (interrupts_enabled (ks m)).
    { cbn. split; [|split; [constructor|split; [discriminate|]]].
      - exists []. split; [now rewrite app_nil_r | split; [constructor | reflexivity]].
      - intros f m' [= <- _]. eauto. }
    set (m1 := Machine _ _). rewrite pmi_rest_run.
    pose proof (pmi_loop_effects (pending_status m) (seq 0 MT_CORE_NFIXED) m1) as Hloop.
    cbn zeta in Hloop. destruct Hloop as [[evs [Hlog Hevs]] [Hch Hhalt]].
    apply (pmi_event_update_calls state) in Hevs as [Hevs Hwr].
    assert (Hch1 : pmi_changes (ks m) (ks m1)) by apply pmi_changes_pmis.
    destruct (for_each _ _ m1) as [[] m2 | f m2]; cbn [result_state] in *.
    - destruct (nonzero _); cbn.
      + split; [|split; [|split; [|discriminate]]].
        * exists ((EvRdmsr GLOBAL_STATUS :: evs) ++ [EvKpcPmi state]).
          split; [|split].
          -- rewrite Hlog. subst m1. cbn. now rewrite <- !app_assoc.
          -- apply Forall_app. split; [constructor; [constructor | assumption]|].
             constructor; constructor.
          -- rewrite msr_writes_app. cbn. fold (msr_writes evs). now rewrite Hwr.
        * eapply pmi_changes_trans; [exact Hch1|].
          eapply pmi_changes_trans; [exact Hch | apply pmi_changes_kpc].
        * now intros v m' [= <- _].
      + split; [|split; [|split; [|discriminate]]].
        * exists (EvRdmsr GLOBAL_STATUS :: evs). split; [|split].
          -- rewrite Hlog. subst m1. cbn. now rewrite <- !app_assoc.
          -- constructor; [constructor | assumption].
          -- exact Hwr.
        * eapply pmi_changes_trans; [exact Hch1 | exact Hch].
        * now intros v m' [= <- _].
    - split; [|split; [|split; [discriminate|]]].
      + exists (EvRdmsr GLOBAL_STATUS :: evs). split; [|split].
        * rewrite Hlog. subst m1. cbn. now rewrite <- !app_assoc.
        * constructor; [constructor | assumption].
        * exact Hwr.
      + eapply pmi_changes_trans; [exact Hch1 | exact Hch].
      + intros f' m' [= <- _]. now apply (Hhalt f m2). }
  destruct Hany as (Hlog & Hch & Hret & Hhalt).
  split; [exact Hlog|]. split; [exact Hch|]. split; [exact Hret|].
  split; [exact Hhalt|].
  intros Hframe Hintr Hok.
  destruct (mt_pmi_x86_64_returns state m Hframe Hintr Hok) as [m' [Hrun Hlog']].
  exists m'. eexists. split; [exact Hrun|]. rewrite Hlog'. reflexivity.
Qed.

End Handler.

Section Monotonicity.
Context {HW : Type} `{!Platform HW}.

(** ** The counts along a sequence of operations *)

Lemma array_get_insert_mono (a : list Z) (i j : nat) (v : Z) :
  array_get a i ≤ v → array_get a j ≤ array_get (<[i := v]> a) j.
Proof.
  intros Hv. destruct (decide (i = j)) as [<- | Hne].
  - destruct (decide (i < length a)%nat) as [Hlt | Hge].
    + unfold array_get at 2. now rewrite list_lookup_insert_eq by assumption.
    + rewrite list_insert_ge by lia. lia.
  - rewrite array_get_insert_ne by assumption. lia.
Qed.

(** Adding the wrapped distance does not decrease a count that has room for
    one more wrap. *)
Lemma fold_count_mono (c s : Z) :
  (pmi_prior s <=? CTR_MAX) = true →
  c + 2 ^ 48 < 2 ^ 64 →
  c ≤ wrap64 (c + pmi_wrapped s).
Proof.
  intros Hassert Hroom. apply Z.leb_le in Hassert. rewrite CTR_MAX_eq in Hassert.
  assert (Hp : 0 ≤ pmi_prior s < 2 ^ 64) by apply wrap64_range.
  assert (Hw : pmi_wrapped s = pmi_prior s + 1).
  { unfold pmi_wrapped. apply wrap64_small. lia. }
  rewrite Hw. destruct (Z_lt_le_dec (c + (pmi_prior s + 1)) 0) as [Hneg | Hpos].
  - pose proof (wrap64_range (c + (pmi_prior s + 1))). lia.
  - rewrite wrap64_small by lia. lia.
Qed.

Lemma pmi_loop_counts_mono (status : Z) (l : list nat) (m m' : machine HW) :
  (∀ ctr, never_decreases_counts (update_count_effect ctr)) →
  folds_have_room status l m →
  for_each (pmi_fixed status) l m = Done tt m' →
  ∀ j : nat, array_get (mtc_counts (cpu_monotonic (ks m))) j
             ≤ array_get (mtc_counts (cpu_monotonic (ks m'))) j.
Proof.
  intros Hupd. revert m. induction l as [|i l IH]; intros m Hroom Hrun j.
  - cbn in Hrun. injection Hrun as <-. lia.
  - cbn [folds_have_room] in Hroom. destruct Hroom as [Hroom_i Hroom_l].
    cbn [for_each] in Hrun. unfold mbind, M_bind in Hrun.
    destruct (pmi_fixed status i m) as [[] m1 | f m1] eqn:Hstep; [|discriminate].
    etransitivity; [|exact (IH m1 Hroom_l Hrun j)].
    rewrite pmi_fixed_run in Hstep.
    destruct (nonzero (Z.land status (CTR_FIX_POS (Z.of_nat i)))) eqn:Hbit.
    + destruct (pmi_prior _ <=? CTR_MAX) eqn:Hassert; [|discriminate].
      injection Hstep as <-. cbn [ks].
      etransitivity; [|apply Hupd].
      unfold folded. cbn. apply array_get_insert_mono.
      apply fold_count_mono; [exact Hassert | now apply Hroom_i].
    + injection Hstep as <-. lia.
Qed.

Lemma mt_pmi_x86_64_counts_mono (state : Z) (m m' : machine HW) (v : Z) :
  (∀ ctr, never_decreases_counts (update_count_effect ctr)) →
  (∀ st, never_decreases_counts (kpc_pmi_effect st)) →
  pmi_headroom m →
  mt_pmi_x86_64 state m = Done v m' →
  ∀ j : nat, array_get (mtc_counts (cpu_monotonic (ks m))) j
             ≤ array_get (mtc_counts (cpu_monotonic (ks m'))) j.
Proof.
  intros Hupd Hkpc Hroom Hrun j. rewrite mt_pmi_x86_64_entry in Hrun.
  destruct (interrupts_enabled (ks m)); [discriminate|].
  rewrite pmi_rest_run in Hrun. fold (pmi_loop_start m) in Hrun.
  destruct (for_each _ _ (pmi_loop_start m)) as [[] m2 | f m2] eqn:Hloop;
    [|discriminate].
  assert (Hm2 : array_get (mtc_counts (cpu_monotonic (ks m))) j
                ≤ array_get (mtc_counts (cpu_monotonic (ks m2))) j).
  { exact (pmi_loop_counts_mono (pending_status m) (seq 0 MT_CORE_NFIXED)
             (pmi_loop_start m) m2 Hupd Hroom Hloop j). }
  destruct (nonzero _); injection Hrun as <- <-; [|exact Hm2].
  cbn [ks]. etransitivity; [exact Hm2 | apply Hkpc].
Qed.

Lemma mt_core_snap_mtc (ctr v : Z) (m m' : machine HW) :
  mt_core_snap ctr m = Done v m' →
  cpu_monotonic (ks m') = cpu_monotonic (ks m).
Proof.
  unfold mt_core_snap. run_prims.
  destruct (mt_core_supported (ks m)); cbn.
  - destruct ctr as [|[p|p|]|p]; try discriminate;
      try (destruct p; try discriminate); now intros [= _ <-].
  - now intros [= _ <-].
Qed.

Lemma mt_core_set_snap_mtc (ctr count : Z) (m m' : machine HW) :
  mt_core_set_snap ctr count m = Done tt m' →
  cpu_monotonic (ks m') = cpu_monotonic (ks m).
Proof.
  unfold mt_core_set_snap. run_prims.
  destruct (mt_core_supported (ks m)); cbn.
  - destruct ctr as [|[p|p|]|p]; try discriminate;
      try (destruct p; try discriminate); now intros [= <-].
  - now intros [= <-].
Qed.

Lemma mt_cpu_up_mtc (m m' : machine HW) :
  mt_cpu_up m = Done tt m' →
  cpu_monotonic (ks m') = cpu_monotonic (ks m).
Proof.
  destruct (mt_core_supported (ks m)) eqn:Hflag.
  - rewrite mt_cpu_up_run by assumption. now intros [= <-].
  - destruct m as [[h sup en mtc pmis pf] l]. cbn in Hflag. subst sup.
    cbv -[app]. now intros [= <-].
Qed.

Lemma mt_cpu_down_counts_mono (m m' : machine HW) :
  never_decreases_counts update_fixed_counts_effect →
  mt_cpu_down m = Done tt m' →
  ∀ j : nat, array_get (mtc_counts (cpu_monotonic (ks m))) j
             ≤ array_get (mtc_counts (cpu_monotonic (ks m'))) j.
Proof.
  intros Hflush. unfold mt_cpu_down, core_down. run_prims.
  destruct (mt_core_supported (ks m)); cbn.
  - destruct (interrupts_enabled (ks m)); cbn; [discriminate|].
    intros [= <-] j. cbn [ks].
    etransitivity; [|apply Hflush]. cbn. lia.
  - intros [= <-] j. lia.
Qed.

Lemma mt_init_mtc (m m' : machine HW) :
  mt_init m = Done tt m' →
  cpu_monotonic (ks m') = cpu_monotonic (ks m).
Proof.
  unfold mt_init. run_prims.
  destruct (2 <=? _); cbn; now intros [= <-].
Qed.

Lemma exec_counts_mono (o : op HW) (m m' : machine HW) :
  (∀ ctr, never_decreases_counts (update_count_effect ctr)) →
  never_decreases_counts update_fixed_counts_effect →
  (∀ st, never_decreases_counts (kpc_pmi_effect st)) →
  op_headroom o m →
  exec o m = Done tt m' →
  ∀ j : nat, array_get (mtc_counts (cpu_monotonic (ks m))) j
             ≤ array_get (mtc_counts (cpu_monotonic (ks m'))) j.
Proof.
  intros Hupd Hflush Hkpc Hroom Hrun j. destruct o; cbn [exec op_headroom] in *.
  - unfold mbind, M_bind in Hrun.
    destruct (mt_core_snap ctr m) as [v m1 | f m1] eqn:Hsnap; [|discriminate].
    injection Hrun as <-. rewrite (mt_core_snap_mtc _ _ _ _ Hsnap). lia.
  - rewrite (mt_core_set_snap_mtc _ _ _ _ Hrun). lia.
  - now apply mt_cpu_down_counts_mono.
  - rewrite (mt_cpu_up_mtc _ _ Hrun). lia.
  - unfold mbind, M_bind in Hrun.
    destruct (mt_pmi_x86_64 state m) as [v m1 | f m1] eqn:Hpmi; [|discriminate].
    injection Hrun as <-. now apply (mt_pmi_x86_64_counts_mono state m m1 v).
  - rewrite (mt_init_mtc _ _ Hrun). lia.
  - injection Hrun as <-. cbn. lia.
Qed.

(** C2, as the code has it: accumulated[i] does not decrease along a sequence
    of operations of this file in which every fold of an overflow interrupt
    finds room for one more wrap (2^48) in the 64-bit count it adds to, the
    functions of the other files ([mt_mtc_update_count],
    [mt_mtc_update_fixed_counts], [kpc_pmi_handler]) not decreasing a count
    either.  The addition itself is modulo 2^64 and unchecked. *)
Theorem counts_never_decrease_with_headroom (m m' : machine HW) (i : nat) :
  (∀ ctr, never_decreases_counts (update_count_effect ctr)) →
  never_decreases_counts update_fixed_counts_effect →
  (∀ st, never_decreases_counts (kpc_pmi_effect st)) →
  reaches m m' →
  (i < MT_CORE_NFIXED)%nat →
  array_get (mtc_counts (cpu_monotonic (ks m))) i
  ≤ array_get (mtc_counts (cpu_monotonic (ks m'))) i.
Proof.
  intros Hupd Hflush Hkpc Hreach _.
  induction Hreach as [m | m m1 o m2 _ IH Hroom Hrun].
  - lia.
  - etransitivity; [exact IH|]. now apply (exec_counts_mono o m1 m2).
Qed.

End Monotonicity.

(** * Further properties of the file *)

Section AccessAndPower.
Context {HW : Type} `{!Platform HW}.

(** ** Counter access with a valid index *)

Lemma PMC_FIXED_RD_valid (ctr : Z) :
  0 ≤ ctr < 3 → PMC_FIXED_RD ctr = 2 ^ 30 + ctr.
Proof.
  intros Hc. assert (Hcases : ctr = 0 ∨ ctr = 1 ∨ ctr = 2) by lia.
  destruct Hcases as [-> | [-> | ->]]; reflexivity.
Qed.

Lemma mt_core_set_snap_valid (m : machine HW) (ctr count : Z) :
  mt_core_supported (ks m) = true →
  0 ≤ ctr < 3 →
  mt_core_set_snap ctr count m
  = Done tt (Machine (set_hw (hw_wrmsr (PMC_FIXED_WR ctr) count (hw (ks m))) (ks m))
                     (log m ++ [EvWrmsr (PMC_FIXED_WR ctr) count])).
Proof.
  intros Hflag Hc. assert (Hcases : ctr = 0 ∨ ctr = 1 ∨ ctr = 2) by lia.
  unfold mt_core_set_snap. run_prims. rewrite Hflag.
  destruct Hcases as [-> | [-> | ->]]; reflexivity.
Qed.

Lemma mt_core_snap_valid (m : machine HW) (ctr : Z) :
  mt_core_supported (ks m) = true →
  0 ≤ ctr < 3 →
  mt_core_snap ctr m
  = Done (hw_rdpmc (PMC_FIXED_RD ctr) (hw (ks m)))
         (Machine (ks m) (log m ++ [EvRdpmc (PMC_FIXED_RD ctr)])).
Proof.
  intros Hflag Hc. assert (Hcases : ctr = 0 ∨ ctr = 1 ∨ ctr = 2) by lia.
  unfold mt_core_snap. run_prims. rewrite Hflag.
  destruct Hcases as [-> | [-> | ->]]; reflexivity.
Qed.

(** X1: with the feature supported and an index in {0,1,2}, a write of a
    fixed counter followed by a read of the same index goes to the register
    [MSR_IA32_PERF_FIXED_CTR0 + ctr] and reads with the selector
    [2^30 + ctr]; on hardware where that selector reads back what that
    register was given (as [f] of it), the read returns [f count]. *)
Theorem set_snap_then_snap_round_trip
    (f : Z → Z) (m : machine HW) (ctr count : Z) :
  (∀ c v h, 0 ≤ c < 3 →
     hw_rdpmc (2 ^ 30 + c) (hw_wrmsr (MSR_IA32_PERF_FIXED_CTR0 + c) v h) = f v) →
  mt_core_supported (ks m) = true →
  0 ≤ ctr < 3 →
  (mt_core_set_snap ctr count;; mt_core_snap ctr) m
  = Done (f count)
      (Machine
         (set_hw (hw_wrmsr (MSR_IA32_PERF_FIXED_CTR0 + ctr) count (hw (ks m))) (ks m))
         (log m ++ [EvWrmsr (MSR_IA32_PERF_FIXED_CTR0 + ctr) count;
                    EvRdpmc (2 ^ 30 + ctr)])).
Proof.
  intros Hlaw Hflag Hc.
  rewrite (bind_Done _ _ _ _ _ (mt_core_set_snap_valid m ctr count Hflag Hc)).
  rewrite mt_core_snap_valid by assumption.
  cbn [ks log hw set_hw]. rewrite PMC_FIXED_RD_valid by assumption.
  unfold PMC_FIXED_WR. rewrite Hlaw by assumption.
  now rewrite <- app_assoc.
Qed.

(** X2: [mt_core_snap] only reads: for every index and every state, whether
    it returns or panics, it leaves the kernel state as it is and logs no
    register write.  [mt_core_set_snap] changes nothing but the hardware, and
    what it logs is nothing or the one write of [count] to the register of
    [ctr]. *)
Theorem counter_access_frame (m : machine HW) (ctr count : Z) :
  ks (result_state (mt_core_snap ctr m)) = ks m
  ∧ msr_writes (log (result_state (mt_core_snap ctr m))) = msr_writes (log m)
  ∧ (∃ h, ks (result_state (mt_core_set_snap ctr count m)) = set_hw h (ks m))
  ∧ (log (result_state (mt_core_set_snap ctr count m)) = log m
     ∨ log (result_state (mt_core_set_snap ctr count m))
       = log m ++ [EvWrmsr (PMC_FIXED_WR ctr) count]).
Proof.
  destruct m as [[h sup en mtc pmis pf] l].
  unfold mt_core_snap, mt_core_set_snap. run_prims.
  destruct sup; cbn.
  - destruct ctr as [|[p|p|]|p]; try (destruct p); cbn;
      rewrite ?msr_writes_app, ?app_nil_r;
      (split; [reflexivity|]); (split; [reflexivity|]);
      (split; [eexists; reflexivity|]); auto.
  - split; [reflexivity|]. split; [reflexivity|].
    split; [exists h; reflexivity | now left].
Qed.

(** ** Core shutdown and startup *)

(** X3: [mt_cpu_down] does nothing when the feature is unsupported, whatever
    the interrupt state; supported and entered with interrupts enabled it
    halts on its assertion before it writes anything; supported and entered
    with interrupts disabled it clears [GLOBAL_CTRL] and then calls
    [mt_mtc_update_fixed_counts], in this order. *)
Theorem cpu_down_disables_then_flushes (m : machine HW) :
  (mt_core_supported (ks m) = false → mt_cpu_down m = Done tt m)
  ∧ (mt_core_supported (ks m) = true → interrupts_enabled (ks m) = true →
     mt_cpu_down m
     = Halt (AssertFailed "ml_get_interrupts_enabled() == FALSE") m)
  ∧ (mt_core_supported (ks m) = true → interrupts_enabled (ks m) = false →
     mt_cpu_down m
     = Done tt (Machine
         (update_fixed_counts_effect
            (set_hw (hw_wrmsr GLOBAL_CTRL 0 (hw (ks m))) (ks m)))
         (log m ++ [EvWrmsr GLOBAL_CTRL 0; EvUpdateFixedCounts]))).
Proof.
  destruct m as [[h sup en mtc pmis pf] l].
  unfold mt_cpu_down, core_down. run_prims.
  split; [|split].
  - now intros ->.
  - now intros -> ->.
  - intros -> ->. cbn. now rewrite <- app_assoc.
Qed.

(** X4: [mt_cpu_up] returns from every state: the assertion of [core_up]
    cannot fail under it and the indices it passes on are valid.  It
    changes nothing but the hardware, which it leaves alone when the feature
    is unsupported, and it ends in the interrupt state it was entered
    with. *)
Theorem mt_cpu_up_always_returns (m : machine HW) :
  let snaps := mtc_snaps (cpu_monotonic (ks m)) in
  mt_cpu_up m
  = Done tt
      (if mt_core_supported (ks m)
       then Machine (set_hw (core_up_hw snaps (hw (ks m))) (ks m))
                    (log m ++ [EvSetInterrupts false] ++ core_up_writes snaps
                           ++ [EvSetInterrupts (interrupts_enabled (ks m))])
       else Machine (ks m)
                    (log m ++ [EvSetInterrupts false;
                               EvSetInterrupts (interrupts_enabled (ks m))])).
Proof.
  cbn zeta. destruct (mt_core_supported (ks m)) eqn:Hflag.
  - now apply mt_cpu_up_run.
  - destruct m as [[h sup en mtc pmis pf] l]. cbn in Hflag. subst sup.
    cbv -[app]. now rewrite <- app_assoc.
Qed.

End AccessAndPower.

Section HandlerRuns.
Context {HW : Type} `{!Platform HW}.

(** ** The handler on whole runs *)

Lemma fixed_bit_clear (status : Z) (i : nat) (m : machine HW) :
  (i < MT_CORE_NFIXED)%nat →
  Z.testbit status (32 + Z.of_nat i) = false →
  pmi_fixed status i m = Done tt m.
Proof.
  intros Hi Hbit. now rewrite pmi_fixed_run, fixed_ovf_test, Hbit by assumption.
Qed.

(** X5: entered with interrupts enabled the handler halts on its first
    assertion with nothing read, counted or logged; entered with interrupts
    disabled and none of the status bits 0..3 and 32..34 set, it returns 0 with
    [mt_pmis] incremented modulo 2^64 and nothing else changed: no fold, no
    foreign call. *)
Theorem pmi_entry_and_spurious (state : Z) (m : machine HW) :
  (interrupts_enabled (ks m) = true →
   mt_pmi_x86_64 state m
   = Halt (AssertFailed "ml_get_interrupts_enabled() == FALSE") m)
  ∧ (interrupts_enabled (ks m) = false →
     (∀ n, 0 ≤ n < 4 ∨ 32 ≤ n < 35 → Z.testbit (pending_status m) n = false) →
     mt_pmi_x86_64 state m
     = Done 0 (Machine (set_pmis (wrap64 (mt_pmis (ks m) + 1)) (ks m))
                       (log m ++ [EvRdmsr GLOBAL_STATUS]))).
Proof.
  split.
  - intros Hintr. now rewrite mt_pmi_x86_64_entry, Hintr.
  - intros Hintr Hbits. rewrite mt_pmi_x86_64_entry, Hintr, pmi_rest_run.
    unfold MT_CORE_NFIXED. cbn [seq for_each].
    set (m1 := Machine _ _).
    assert (H0 : pmi_fixed (pending_status m) 0 m1 = Done tt m1).
    { apply fixed_bit_clear; [unfold MT_CORE_NFIXED; lia|]. apply Hbits. cbn. lia. }
    assert (H1 : pmi_fixed (pending_status m) 1 m1 = Done tt m1).
    { apply fixed_bit_clear; [unfold MT_CORE_NFIXED; lia|]. apply Hbits. cbn. lia. }
    assert (H2 : pmi_fixed (pending_status m) 2 m1 = Done tt m1).
    { apply fixed_bit_clear; [unfold MT_CORE_NFIXED; lia|]. apply Hbits. cbn. lia. }
    rewrite (bind_Done _ _ _ _ _ H0), (bind_Done _ _ _ _ _ H1).
    rewrite (bind_Done _ _ _ _ _ H2). cbn [mret M_ret].
    rewrite configurable_ovf_test, !Hbits by lia. reflexivity.
Qed.

(** X6: when the first overflowed fixed counter has a snapshot above
    2^48 - 1, the handler halts on the assertion of the fold after it has
    read the status and incremented [mt_pmis]: no count is changed, no foreign
    function is called, and nothing is forwarded even if low status bits are
    set. *)
Theorem pmi_halts_on_snapshot_out_of_range
    (state : Z) (m : machine HW) (i : nat) (s : Z) :
  interrupts_enabled (ks m) = false →
  (i < MT_CORE_NFIXED)%nat →
  Z.testbit (pending_status m) (32 + Z.of_nat i) = true →
  (∀ j : nat, (j < i)%nat → Z.testbit (pending_status m) (32 + Z.of_nat j) = false) →
  mtc_snaps (cpu_monotonic (ks m)) !! i = Some s →
  2 ^ 48 - 1 < s < 2 ^ 64 →
  mt_pmi_x86_64 state m
  = Halt (AssertFailed "prior <= CTR_MAX")
         (Machine (set_pmis (wrap64 (mt_pmis (ks m) + 1)) (ks m))
                  (log m ++ [EvRdmsr GLOBAL_STATUS])).
Proof.
  intros Hintr Hi Hbit Hlow Hs Hrange.
  rewrite mt_pmi_x86_64_entry, Hintr, pmi_rest_run.
  set (m1 := Machine _ _).
  assert (Hhalt : pmi_fixed (pending_status m) i m1
                  = Halt (AssertFailed "prior <= CTR_MAX") m1).
  { rewrite pmi_fixed_run, fixed_ovf_test, Hbit by assumption.
    subst m1. cbn [ks]. unfold set_pmis at 1. cbn [cpu_monotonic].
    rewrite (array_get_Some _ _ _ Hs). now rewrite pmi_prior_fails. }
  assert (Hskip : ∀ j : nat, (j < i)%nat →
            pmi_fixed (pending_status m) j m1 = Done tt m1).
  { intros j Hj. apply fixed_bit_clear; [lia | now apply Hlow]. }
  unfold MT_CORE_NFIXED in *. cbn [seq for_each].
  destruct i as [|[|[|i]]]; [ | | | lia].
  - now rewrite (bind_Halt _ _ _ _ _ Hhalt).
  - rewrite (bind_Done _ _ _ _ _ (Hskip 0%nat ltac:(lia))).
    now rewrite (bind_Halt _ _ _ _ _ Hhalt).
  - rewrite (bind_Done _ _ _ _ _ (Hskip 0%nat ltac:(lia))).
    rewrite (bind_Done _ _ _ _ _ (Hskip 1%nat ltac:(lia))).
    now rewrite (bind_Halt _ _ _ _ _ Hhalt).
Qed.

Lemma list_lookup_insert_const (a : list Z) (i : nat) (v : Z) :
  <[i := v]> a !! i = (λ _, v) <$> a !! i.
Proof.
  destruct (decide (i < length a)%nat) as [Hlt | Hge].
  - rewrite list_lookup_insert_eq by assumption.
    destruct (lookup_lt_is_Some_2 a i Hlt) as [x ->]. reflexivity.
  - rewrite list_insert_ge by lia. now rewrite lookup_ge_None_2 by lia.
Qed.

(** The loop over distinct counters with snapshots in range: every flagged
    counter gets its wrapped distance added once, the others keep their
    count. *)
Lemma pmi_loop_counts_exact (status : Z) (l : list nat) (m : machine HW) :
  foreign_frame HW →
  NoDup l →
  (∀ i : nat, i ∈ l →
     nonzero (Z.land status (CTR_FIX_POS (Z.of_nat i))) = true →
     0 ≤ array_get (mtc_snaps (cpu_monotonic (ks m))) i ≤ 2 ^ 48 - 1) →
  ∃ m', for_each (pmi_fixed status) l m = Done tt m'
    ∧ (∀ j : nat, j ∈ l →
         nonzero (Z.land status (CTR_FIX_POS (Z.of_nat j))) = true →
         mtc_counts (cpu_monotonic (ks m')) !! j
         = (λ _, wrap64 (array_get (mtc_counts (cpu_monotonic (ks m))) j
                         + pmi_wrapped (array_get (mtc_snaps (cpu_monotonic (ks m))) j)))
           <$> mtc_counts (cpu_monotonic (ks m)) !! j)
    ∧ (∀ j : nat,
         j ∉ l ∨ nonzero (Z.land status (CTR_FIX_POS (Z.of_nat j))) = false →
         mtc_counts (cpu_monotonic (ks m')) !! j
         = mtc_counts (cpu_monotonic (ks m)) !! j)
    ∧ (∀ j : nat, j ∉ l →
         mtc_snaps (cpu_monotonic (ks m')) !! j
         = mtc_snaps (cpu_monotonic (ks m)) !! j).
Proof.
  intros Hframe. revert m. induction l as [|i l IH]; intros m Hnd Hok.
  - exists m. split; [reflexivity|]. split; [|split]; try reflexivity.
    intros j Hj. now apply elem_of_nil in Hj.
  - apply NoDup_cons in Hnd as [Hnotin Hnd].
    cbn [for_each]. unfold mbind, M_bind. rewrite pmi_fixed_run.
    destruct (nonzero (Z.land status (CTR_FIX_POS (Z.of_nat i)))) eqn:Hbit.
    + rewrite pmi_prior_passes by (apply Hok; [left | assumption]).
      set (m1 := Machine _ _).
      assert (Hc1 : mtc_counts (cpu_monotonic (ks m1))
                    = <[i := wrap64 (array_get (mtc_counts (cpu_monotonic (ks m))) i
                             + pmi_wrapped (array_get (mtc_snaps (cpu_monotonic (ks m))) i))]>
                        (mtc_counts (cpu_monotonic (ks m)))).
      { subst m1. cbn [ks]. now rewrite (update_count_counts Hframe). }
      assert (Hs1 : ∀ j : nat, j ≠ i →
                mtc_snaps (cpu_monotonic (ks m1)) !! j
                = mtc_snaps (cpu_monotonic (ks m)) !! j).
      { intros j Hj. subst m1. cbn [ks].
        rewrite (update_count_snaps Hframe) by lia.
        unfold folded. cbn. now apply list_lookup_insert_ne. }
      destruct (IH m1 Hnd) as (m' & Hrun & Hset & Hkeep & Hsnaps).
      { intros j Hj Hbj. unfold array_get. rewrite Hs1 by (intros ->; contradiction).
        apply Hok; [now right | assumption]. }
      exists m'. split; [exact Hrun|]. split; [|split].
      * intros j Hj Hbj. apply elem_of_cons in Hj as [-> | Hj].
        -- rewrite Hkeep by now left. rewrite Hc1. apply list_lookup_insert_const.
        -- assert (Hne : j ≠ i) by (intros ->; contradiction).
           rewrite (Hset j Hj Hbj), Hc1.
           rewrite list_lookup_insert_ne by congruence.
           unfold array_get. rewrite list_lookup_insert_ne by congruence.
           now rewrite Hs1 by assumption.
      * intros j [Hj | Hbj].
        -- apply not_elem_of_cons in Hj as [Hne Hj].
           rewrite Hkeep by now left. rewrite Hc1.
           apply list_lookup_insert_ne. congruence.
        -- assert (Hne : j ≠ i) by (intros ->; congruence).
           rewrite Hkeep by now right. rewrite Hc1.
           apply list_lookup_insert_ne. congruence.
      * intros j Hj. apply not_elem_of_cons in Hj as [Hne Hj].
        rewrite Hsnaps by assumption. now apply Hs1.
    + destruct (IH m Hnd) as (m' & Hrun & Hset & Hkeep & Hsnaps).
      { intros j Hj Hbj. apply Hok; [now right | assumption]. }
      exists m'. split; [exact Hrun|]. split; [|split].
      * intros j Hj Hbj. apply elem_of_cons in Hj as [-> | Hj]; [congruence|].
        now apply Hset.
      * intros j [Hj | Hbj].
        -- apply not_elem_of_cons in Hj as [Hne Hj]. apply Hkeep. now left.
        -- apply Hkeep. now right.
      * intros j Hj. apply not_elem_of_cons in Hj as [Hne Hj]. now apply Hsnaps.
Qed.

(** X7: one run of the handler, in interrupt context with snapshots in range,
    adds to the count of every overflowed fixed counter the distance
    2^48 - snapshot exactly once (modulo 2^64) and leaves the count of every
    other fixed counter as it is, provided [mt_mtc_update_count] and
    [kpc_pmi_handler] do not touch the counts. *)
Theorem pmi_folds_each_overflowed_counter_once
    (state : Z) (m : machine HW) (i : nat) (c s : Z) :
  foreign_frame HW →
  (∀ st k, mtc_counts (cpu_monotonic (kpc_pmi_effect st k))
           = mtc_counts (cpu_monotonic k)) →
  interrupts_enabled (ks m) = false →
  pmi_snaps_in_range m →
  (i < MT_CORE_NFIXED)%nat →
  mtc_counts (cpu_monotonic (ks m)) !! i = Some c →
  mtc_snaps (cpu_monotonic (ks m)) !! i = Some s →
  ∃ m', mt_pmi_x86_64 state m = Done 0 m'
        ∧ mtc_counts (cpu_monotonic (ks m')) !! i
          = Some (if Z.testbit (pending_status m) (32 + Z.of_nat i)
                  then wrap64 (c + (2 ^ 48 - s)) else c).
Proof.
  intros Hframe Hkpc Hintr Hok Hi Hc Hs.
  rewrite mt_pmi_x86_64_entry, Hintr, pmi_rest_run.
  set (status := pending_status m). set (m1 := Machine _ _).
  destruct (pmi_loop_counts_exact status (seq 0 MT_CORE_NFIXED) m1 Hframe seq_fixed_NoDup)
    as (m2 & Hrun & Hset & Hkeep & _).
  { intros j Hj Hbj. apply (Hok j); [now apply seq_fixed_lt | exact Hbj]. }
  rewrite Hrun.
  assert (Hin : i ∈ seq 0 MT_CORE_NFIXED).
  { apply list_elem_of_In, List.in_seq. lia. }
  assert (Hm2 : mtc_counts (cpu_monotonic (ks m2)) !! i
                = Some (if Z.testbit status (32 + Z.of_nat i)
                        then wrap64 (c + (2 ^ 48 - s)) else c)).
  { rewrite <- fixed_ovf_test by assumption.
    destruct (nonzero (Z.land status (CTR_FIX_POS (Z.of_nat i)))) eqn:Hbit.
    - rewrite (Hset i Hin Hbit). subst m1. cbn [ks]. unfold set_pmis. cbn [cpu_monotonic].
      rewrite Hc, (array_get_Some _ _ _ Hc), (array_get_Some _ _ _ Hs). cbn.
      rewrite pmi_wrapped_in_range.
      + do 3 f_equal. lia.
      + rewrite <- (array_get_Some _ _ _ Hs). apply (Hok i Hi). exact Hbit.
    - rewrite Hkeep by now right. exact Hc. }
  destruct (nonzero (Z.land status CONFIGURABLE_OVF_MASK)).
  - eexists. split; [reflexivity|]. cbn [ks]. now rewrite Hkpc.
  - eexists. split; [reflexivity | exact Hm2].
Qed.

(** X8: in interrupt context with snapshots in range the handler logs, in
    this order: the read of [GLOBAL_STATUS]; one call of
    [mt_mtc_update_count] for each of the fixed counters 0, 1, 2 whose status
    bit 32, 33, 34 is set, in the order of the counters, and none for a
    counter whose bit is clear; then the call of [kpc_pmi_handler] when one of
    the bits 0..3 is set. *)
Theorem pmi_calls_in_counter_order (state : Z) (m : machine HW) :
  foreign_frame HW →
  interrupts_enabled (ks m) = false →
  pmi_snaps_in_range m →
  ∃ m', mt_pmi_x86_64 state m = Done 0 m'
        ∧ log m'
          = log m ++ [EvRdmsr GLOBAL_STATUS]
            ++ (if Z.testbit (pending_status m) 32 then [EvUpdateCount 0] else [])
            ++ (if Z.testbit (pending_status m) 33 then [EvUpdateCount 1] else [])
            ++ (if Z.testbit (pending_status m) 34 then [EvUpdateCount 2] else [])
            ++ (if Z.testbit (pending_status m) 0 || Z.testbit (pending_status m) 1
                   || Z.testbit (pending_status m) 2 || Z.testbit (pending_status m) 3
                then [EvKpcPmi state] else []).
Proof.
  intros Hframe Hintr Hok.
  destruct (mt_pmi_x86_64_returns state m Hframe Hintr Hok) as [m' [Hrun Hlog]].
  exists m'. split; [exact Hrun|]. rewrite Hlog.
  rewrite configurable_ovf_test.
  unfold update_calls, MT_CORE_NFIXED. cbn [seq flat_map].
  rewrite !fixed_ovf_test by (unfold MT_CORE_NFIXED; lia).
  change (32 + Z.of_nat 0) with 32. change (32 + Z.of_nat 1) with 33.
  change (32 + Z.of_nat 2) with 34. change (Z.of_nat 0) with 0.
  change (Z.of_nat 1) with 1. change (Z.of_nat 2) with 2.
  now rewrite app_nil_r, <- !app_assoc.
Qed.

End HandlerRuns.

Section InitAndSequences.
Context {HW : Type} `{!Platform HW}.

(** ** Feature initialization *)

Lemma land_0xff (z : Z) : Z.land z 0xff = z mod 256.
Proof. change 0xff with (Z.ones 8). now rewrite Z.land_ones by lia. Qed.

Lemma mt_init_run (m : machine HW) :
  mt_init m
  = Done tt
      (if 2 <=? pmc_version (hw (ks m))
       then Machine (set_supported true (set_pmi_func true (ks m)))
                    (log m ++ [EvCpuid 0xA; EvLapicSetPmiFunc])
       else Machine (ks m) (log m ++ [EvCpuid 0xA])).
Proof.
  unfold mt_init, pmc_version. rewrite <- land_0xff.
  unfold do_cpuid, lapic_set_pmi_func, emit, modify_ks, get_ks,
    mbind, M_bind, mret, M_ret.
  cbn [ks log]. destruct (2 <=? _); [|reflexivity].
  cbn [ks log]. now rewrite <- app_assoc.
Qed.

(** X9: [mt_init] returns from every state.  It looks at the low byte of
    [cpuinfo[0]] of leaf 0xA only: when that version is at least 2 it
    registers the handler and then sets the feature flag, otherwise it changes
    nothing.  It never clears the flag, it leaves hardware, interrupt state,
    counts, snapshots and [mt_pmis] alone, and a second call leaves the kernel
    state of the first. *)
Theorem mt_init_sets_flag_by_version (m : machine HW) :
  mt_init m
  = Done tt
      (if 2 <=? pmc_version (hw (ks m))
       then Machine (set_supported true (set_pmi_func true (ks m)))
                    (log m ++ [EvCpuid 0xA; EvLapicSetPmiFunc])
       else Machine (ks m) (log m ++ [EvCpuid 0xA]))
  ∧ (mt_core_supported (ks m) = true →
     mt_core_supported (ks (result_state (mt_init m))) = true)
  ∧ (mt_core_supported (ks (result_state (mt_init m))) = true →
     mt_core_supported (ks m) = false →
     2 ≤ pmc_version (hw (ks m))
     ∧ lapic_pmi_func (ks (result_state (mt_init m))) = true)
  ∧ ks (result_state ((mt_init;; mt_init) m)) = ks (result_state (mt_init m)).
Proof.
  split; [apply mt_init_run|]. split; [|split].
  - intros Hflag. rewrite mt_init_run.
    destruct (2 <=? _); cbn; [reflexivity | exact Hflag].
  - rewrite mt_init_run. destruct (Z.leb_spec 2 (pmc_version (hw (ks m)))); cbn.
    + intros _ _. split; [assumption | reflexivity].
    + congruence.
  - rewrite (bind_Done _ _ _ _ _ (mt_init_run m)). rewrite !mt_init_run.
    destruct (2 <=? pmc_version (hw (ks m))) eqn:Hv; cbn [result_state ks hw].
    + unfold set_supported at 1. unfold set_pmi_func at 1. cbn [hw].
      rewrite Hv. reflexivity.
    + rewrite Hv. reflexivity.
Qed.

(** X10: on a platform whose version is below 2, started with the flag
    unset, [mt_init] registers nothing and leaves the flag unset, and after
    it every entry point is inert: [mt_core_snap] returns 0 and
    [mt_core_set_snap] and [mt_cpu_down] return without effect for every
    argument, and [mt_cpu_up] returns having written no register and changed
    no kernel state. *)
Theorem unsupported_platform_is_inert (m : machine HW) (ctr count : Z) :
  mt_core_supported (ks m) = false →
  pmc_version (hw (ks m)) < 2 →
  let m0 := Machine (ks m) (log m ++ [EvCpuid 0xA]) in
  mt_init m = Done tt m0
  ∧ mt_core_snap ctr m0 = Done 0 m0
  ∧ mt_core_set_snap ctr count m0 = Done tt m0
  ∧ mt_cpu_down m0 = Done tt m0
  ∧ mt_cpu_up m0
    = Done tt (Machine (ks m0)
                 (log m0 ++ [EvSetInterrupts false;
                             EvSetInterrupts (interrupts_enabled (ks m0))])).
Proof.
  intros Hflag Hv m0.
  assert (Hflag0 : mt_core_supported (ks m0) = false) by exact Hflag.
  split; [|split; [|split; [|split]]].
  - rewrite mt_init_run. destruct (Z.leb_spec 2 (pmc_version (hw (ks m)))); [lia|].
    reflexivity.
  - unfold mt_core_snap. run_prims. now rewrite Hflag.
  - unfold mt_core_set_snap. run_prims. now rewrite Hflag.
  - unfold mt_cpu_down, core_down. run_prims. now rewrite Hflag.
  - destruct m as [[h sup en mtc pmis pf] l]. cbn in Hflag. subst sup.
    subst m0. cbv -[app]. now rewrite <- !app_assoc.
Qed.

(** ** What the entry points log *)

Lemma logs_only_ret {A} (P : event → Prop) (a : A) :
  logs_only P (mret a : M (machine HW) A).
Proof. intros m. exists []. cbn. split; [now rewrite app_nil_r | constructor]. Qed.

Lemma logs_only_bind {A B} (P : event → Prop)
    (c : M (machine HW) A) (f : A → M (machine HW) B) :
  logs_only P c → (∀ a, logs_only P (f a)) → logs_only P (c ≫= f).
Proof.
  intros Hc Hf m. destruct (Hc m) as [evs [Hlog Hevs]].
  unfold mbind, M_bind. destruct (c m) as [a m1 | e m1]; cbn [result_state] in *.
  - destruct (Hf a m1) as [evs' [Hlog' Hevs']].
    exists (evs ++ evs'). split.
    + now rewrite Hlog', Hlog, app_assoc.
    + now apply Forall_app.
  - exists evs. split; assumption.
Qed.

Lemma logs_only_get_ks (P : event → Prop) : logs_only P (get_ks (HW := HW)).
Proof. intros m. exists []. cbn. split; [now rewrite app_nil_r | constructor]. Qed.

Lemma logs_only_modify_ks (P : event → Prop) (f : kstate HW → kstate HW) :
  logs_only P (modify_ks f).
Proof. intros m. exists []. cbn. split; [now rewrite app_nil_r | constructor]. Qed.

Lemma logs_only_assert (P : event → Prop) (b : bool) (cond : string) :
  logs_only P (assert (HW := HW) b cond).
Proof.
  intros m. exists []. unfold assert. destruct b; cbn;
    (split; [now rewrite app_nil_r | constructor]).
Qed.

Lemma logs_only_panic {A} (P : event → Prop) (msg : string) (arg : Z) :
  logs_only P (panic (HW := HW) (A := A) msg arg).
Proof. intros m. exists []. cbn. split; [now rewrite app_nil_r | constructor]. Qed.

Lemma logs_only_emit (P : event → Prop) (e : event) :
  P e → logs_only P (emit (HW := HW) e).
Proof. intros He m. exists [e]. cbn. split; [reflexivity | now constructor]. Qed.

Lemma logs_only_for_each {A} (P : event → Prop)
    (body : A → M (machine HW) unit) (l : list A) :
  (∀ i, logs_only P (body i)) → logs_only P (for_each body l).
Proof.
  intros Hbody. induction l as [|i l IH]; cbn [for_each].
  - apply logs_only_ret.
  - apply logs_only_bind; [apply Hbody | intros _; exact IH].
Qed.

(** Decomposes a computation built from the primitives of the monad. *)
Ltac logs_step :=
  first
    [ apply logs_only_ret
    | apply logs_only_get_ks
    | apply logs_only_modify_ks
    | apply logs_only_assert
    | apply logs_only_panic
    | apply logs_only_emit; cbn; try exact I; unfold written_registers;
      repeat constructor
    | apply logs_only_bind; [|intros ?]
    | apply logs_only_for_each; intros ?
    | match goal with
      | |- logs_only _ (if ?b then _ else _) => destruct b
      | |- logs_only _ (match ?x with _ => _ end) => destruct x
      end ].

Lemma mt_core_set_snap_logs (ctr count : Z) :
  logs_only tame_event (mt_core_set_snap ctr count).
Proof. unfold mt_core_set_snap, wrmsr64. repeat logs_step. Qed.

Lemma mt_pmi_x86_64_logs (state : Z) : logs_only tame_event (mt_pmi_x86_64 state).
Proof.
  unfold mt_pmi_x86_64, pmi_fixed, pmi_fold, ml_get_interrupts_enabled, rdmsr64,
    mt_mtc_update_count, kpc_pmi_handler.
  cbn zeta. repeat logs_step.
Qed.

Lemma written_registers_spare_status (msr : Z) :
  (∀ c, 0 ≤ c < 3 →
     MSR_IA32_PERF_FIXED_CTR0 + c ≠ GLOBAL_STATUS
     ∧ MSR_IA32_PERF_FIXED_CTR0 + c ≠ GLOBAL_OVF) →
  msr ∈ written_registers →
  msr ≠ GLOBAL_STATUS ∧ msr ≠ GLOBAL_OVF.
Proof.
  intros Hbase Hin. unfold written_registers, PMC_FIXED_WR in Hin.
  repeat (apply elem_of_cons in Hin as [-> | Hin]);
    [apply Hbase; lia | apply Hbase; lia | apply Hbase; lia | | | ].
  - split; discriminate.
  - split; discriminate.
  - now apply elem_of_nil in Hin.
Qed.

(** X11: whatever the operation, its arguments, the state and the outcome,
    an entry point of the file only appends to the log, and every register
    write it makes goes to one of the three fixed counters, to
    [FIXED_CTR_CTRL] or to [GLOBAL_CTRL].  Where the three fixed counter
    registers [MSR_IA32_PERF_FIXED_CTR0 + 0, 1, 2] are neither
    [GLOBAL_STATUS] nor [GLOBAL_OVF], the file therefore never writes
    [GLOBAL_STATUS] or [GLOBAL_OVF]: it never clears an overflow bit. *)
Theorem entry_points_write_only_counter_registers (o : op HW) (m : machine HW) :
  ∃ evs : list event,
    log (result_state (exec o m)) = log m ++ evs
    ∧ Forall tame_event evs
    ∧ Forall (λ w : Z * Z, w.1 ∈ written_registers) (msr_writes evs)
    ∧ ((∀ c, 0 ≤ c < 3 →
          MSR_IA32_PERF_FIXED_CTR0 + c ≠ GLOBAL_STATUS
          ∧ MSR_IA32_PERF_FIXED_CTR0 + c ≠ GLOBAL_OVF) →
       Forall (λ w : Z * Z, w.1 ≠ GLOBAL_STATUS ∧ w.1 ≠ GLOBAL_OVF)
              (msr_writes evs)).
Proof.
  assert (Hlogs : logs_only tame_event (exec o)).
  { destruct o; cbn [exec].
    - unfold mt_core_snap, rdpmc. repeat logs_step.
    - apply mt_core_set_snap_logs.
    - unfold mt_cpu_down, core_down, ml_get_interrupts_enabled, wrmsr64,
        mt_mtc_update_fixed_counts. repeat logs_step.
    - unfold mt_cpu_up, core_up, core_up_restore, ml_set_interrupts_enabled,
        ml_get_interrupts_enabled, wrmsr64.
      repeat first [apply mt_core_set_snap_logs | logs_step].
    - apply logs_only_bind; [apply mt_pmi_x86_64_logs | intros ?; apply logs_only_ret].
    - unfold mt_init, do_cpuid, lapic_set_pmi_func. repeat logs_step.
    - apply logs_only_modify_ks. }
  destruct (Hlogs m) as [evs [Hlog Hevs]].
  exists evs. split; [exact Hlog|]. split; [exact Hevs|].
  assert (Hwr : Forall (λ w : Z * Z, w.1 ∈ written_registers) (msr_writes evs)).
  { clear Hlog. induction Hevs as [|e evs He _ IH]; [constructor|].
    destruct e; cbn in *; try exact IH.
    constructor; [exact He | exact IH]. }
  split; [exact Hwr|].
  intros Hbase. eapply Forall_impl; [exact Hwr|].
  intros w Hw. now apply written_registers_spare_status.
Qed.

(** ** Shutdown followed by startup *)

Lemma mt_cpu_down_run (m : machine HW) :
  mt_core_supported (ks m) = true →
  interrupts_enabled (ks m) = false →
  mt_cpu_down m
  = Done tt (Machine
      (update_fixed_counts_effect
         (set_hw (hw_wrmsr GLOBAL_CTRL 0 (hw (ks m))) (ks m)))
      (log m ++ [EvWrmsr GLOBAL_CTRL 0; EvUpdateFixedCounts])).
Proof.
  destruct m as [[h sup en mtc pmis pf] l]. cbn. intros -> ->.
  unfold mt_cpu_down, core_down. run_prims. now rewrite <- app_assoc.
Qed.

(** X12: shutdown followed by startup, on a supported core with interrupts
    disabled and a flush that keeps the feature flag: [GLOBAL_CTRL] is
    cleared first, the flush runs with the counters disabled, and startup
    then writes into the fixed counters the snapshots the flush left, not
    those from before the shutdown, and enables the counters last. *)
Theorem cpu_down_then_up_restores_flushed_snapshots (m : machine HW) :
  (∀ k, mt_core_supported (update_fixed_counts_effect k) = mt_core_supported k) →
  mt_core_supported (ks m) = true →
  interrupts_enabled (ks m) = false →
  let k1 := update_fixed_counts_effect
              (set_hw (hw_wrmsr GLOBAL_CTRL 0 (hw (ks m))) (ks m)) in
  let snaps1 := mtc_snaps (cpu_monotonic k1) in
  (mt_cpu_down;; mt_cpu_up) m
  = Done tt (Machine (set_hw (core_up_hw snaps1 (hw k1)) k1)
               (log m ++ [EvWrmsr GLOBAL_CTRL 0; EvUpdateFixedCounts;
                          EvSetInterrupts false]
                      ++ core_up_writes snaps1
                      ++ [EvSetInterrupts (interrupts_enabled k1)])).
Proof.
  intros Hkeep Hflag Hintr k1 snaps1.
  rewrite (bind_Done _ _ _ _ _ (mt_cpu_down_run m Hflag Hintr)).
  rewrite mt_cpu_up_run.
  - cbn [ks log]. fold k1. fold snaps1. now rewrite <- !app_assoc.
  - cbn [ks]. rewrite Hkeep. exact Hflag.
Qed.

End InitAndSequences.

(** * The statements on the simulated platform *)

#[local] Existing Instance Sim.platform.

Lemma sim_frame : foreign_frame Sim.regs.
Proof.
  split.
  - intros ctr k. cbn. unfold Sim.update_count.
    destruct (0 <=? ctr); reflexivity.
  - intros ctr k j Hne. cbn. unfold Sim.update_count.
    destruct (Z.leb_spec 0 ctr) as [Hpos | Hneg]; [|reflexivity].
    cbn. apply list_lookup_insert_ne. lia.
  - intros k j. cbn. unfold Sim.update_fixed_counts, Sim.update_count. cbn. lia.
  - intros state k j. cbn. lia.
Qed.

Ltac fixed_cases i Hi :=
  destruct i as [|[|[|i]]]; [ | | | exfalso; unfold MT_CORE_NFIXED in Hi; lia].

(** C1 on a core whose counters 0 and 2 overflowed, 100 events and 1 event
    after their snapshots. *)
Lemma pmi_handler_folds_overflowed_counters_witness :
  let m := Sim.core true false (2 ^ 32 + 2 ^ 34) [10; 20; 30]
                    [2 ^ 48 - 100; 2; 2 ^ 48 - 1] in
  ∃ m', mt_pmi_x86_64 7 m = Done 0 m'
        ∧ cpu_monotonic (ks m') = MtCpu [110; 20; 31] [0; 2; 0]
        ∧ log m' = [EvRdmsr GLOBAL_STATUS; EvUpdateCount 0; EvUpdateCount 2].
Proof.
  intros m. eexists. split.
  - apply (pmi_handler_folds_overflowed_counters 7 m eq_refl);
      intros _; vm_compute; split; discriminate.
  - split; reflexivity.
Defined.

(** C1 as stated fails: a count of 2^64 - 3 with the wrap delta 10 becomes 7,
    which is not 10 more; and for a snapshot of 2^48 the handler halts
    without adding anything. *)
Lemma pmi_fold_wraps_or_halts :
  let m := Sim.core true false (2 ^ 32) [2 ^ 64 - 3; 0; 0] [2 ^ 48 - 10; 0; 0] in
  let m2 := Sim.core true false (2 ^ 32) [5; 0; 0] [2 ^ 48; 0; 0] in
  pmi_wrapped (2 ^ 48 - 10) = 10
  ∧ (∃ m', mt_pmi_x86_64 7 m = Done 0 m'
           ∧ mtc_counts (cpu_monotonic (ks m')) !! 0%nat = Some 7
           ∧ 7 ≠ (2 ^ 64 - 3) + 10)
  ∧ mt_pmi_x86_64 7 m2
    = Halt (AssertFailed "prior <= CTR_MAX")
           (Machine (set_pmis 1 (ks m2)) [EvRdmsr GLOBAL_STATUS]).
Proof.
  intros m m2. split; [reflexivity|]. split; [|reflexivity].
  eexists. split; [reflexivity|]. split; [reflexivity | lia].
Qed.

Lemma sim_update_count_keeps_counts (ctr : Z) :
  never_decreases_counts (update_count_effect ctr).
Proof.
  intros k j. cbn. unfold Sim.update_count. destruct (0 <=? ctr); cbn; lia.
Qed.

Lemma sim_update_fixed_counts_keeps_counts :
  never_decreases_counts update_fixed_counts_effect.
Proof. intros k j. cbn. lia. Qed.

Lemma sim_kpc_keeps_counts (state : Z) :
  never_decreases_counts (kpc_pmi_effect state).
Proof. intros k j. cbn. lia. Qed.

(** C2 on a run of two operations: core startup, then an interrupt for
    counter 0. *)
Lemma counts_never_decrease_with_headroom_witness :
  let m := Sim.core true false (2 ^ 32) [10; 20; 30] [5; 6; 7] in
  let m1 := result_state (exec OpCpuUp m) in
  let m2 := result_state (exec (OpPmi 7) m1) in
  reaches m m2
  ∧ array_get (mtc_counts (cpu_monotonic (ks m))) 0
    ≤ array_get (mtc_counts (cpu_monotonic (ks m2))) 0.
Proof.
  intros m m1 m2.
  assert (Hreach : reaches m m2).
  { apply (reaches_step m m1 (OpPmi 7) m2).
    - apply (reaches_step m m OpCpuUp m1); [apply reaches_refl | exact I | reflexivity].
    - vm_compute. repeat split.
    - reflexivity. }
  split; [exact Hreach|].
  apply (counts_never_decrease_with_headroom m m2 0
           sim_update_count_keeps_counts sim_update_fixed_counts_keeps_counts
           sim_kpc_keeps_counts Hreach).
  unfold MT_CORE_NFIXED. lia.
Defined.

(** C2 as stated fails: a count of 2^64 - 1 wraps around when counter 0
    overflows, and the handler returns with the smaller count 2^48 - 1. *)
Lemma count_decreases_without_headroom :
  let m := Sim.core true false (2 ^ 32) [2 ^ 64 - 1; 0; 0] [0; 0; 0] in
  pmi_fold 0 m
  = Done tt (Machine (set_mtc (MtCpu [2 ^ 48 - 1; 0; 0] [0; 0; 0]) (ks m)) (log m))
  ∧ (∃ m', mt_pmi_x86_64 7 m = Done 0 m'
           ∧ array_get (mtc_counts (cpu_monotonic (ks m'))) 0 = 2 ^ 48 - 1
           ∧ array_get (mtc_counts (cpu_monotonic (ks m'))) 0
             < array_get (mtc_counts (cpu_monotonic (ks m))) 0).
Proof.
  intros m. split; [reflexivity|].
  eexists. split; [reflexivity|]. split; reflexivity.
Qed.

(** C3 on a snapshot of 2^48, one above the largest counter value. *)
Lemma pmi_assert_bounds_distance_to_max_witness :
  let m := Sim.core true false (2 ^ 32) [7; 0; 0] [2 ^ 48; 0; 0] in
  2 ^ 48 - 1 < pmi_prior (2 ^ 48)
  ∧ pmi_fixed (2 ^ 32) 0 m = Halt (AssertFailed "prior <= CTR_MAX") m.
Proof.
  intros m.
  destruct (pmi_assert_bounds_distance_to_max (2 ^ 32) 0 m (2 ^ 48)) as [_ H];
    [unfold MT_CORE_NFIXED; lia | reflexivity | reflexivity | lia |].
  apply H. lia.
Defined.

(** C3 as stated fails: for the snapshot 0 the wrap delta is 2^48, above
    2^48 - 1; the assertion holds and the delta is added to the count. *)
Lemma pmi_wrap_delta_exceeds_ctr_max :
  let m := Sim.core true false (2 ^ 32) [7; 0; 0] [0; 0; 0] in
  pmi_wrapped 0 = 2 ^ 48
  ∧ ¬ pmi_wrapped 0 ≤ 2 ^ 48 - 1
  ∧ pmi_fold 0 m
    = Done tt (Machine (set_mtc (MtCpu [7 + 2 ^ 48; 0; 0] [0; 0; 0]) (ks m)) (log m))
  ∧ (∃ m', mt_pmi_x86_64 7 m = Done 0 m'
           ∧ array_get (mtc_counts (cpu_monotonic (ks m'))) 0 = 7 + 2 ^ 48).
Proof.
  intros m. split; [reflexivity|]. split; [|split; [reflexivity|]].
  - change (pmi_wrapped 0) with (2 ^ 48). lia.
  - eexists. split; reflexivity.
Qed.

(** C4 with the feature supported and the index 3. *)
Lemma invalid_index_panics_when_supported_witness :
  let m := Sim.core true false 0 [0; 0; 0] [0; 0; 0] in
  mt_core_snap 3 m
  = Halt (Panic "monotonic: invalid core counter read: %u" 3) m
  ∧ mt_core_set_snap 3 42 m
    = Halt (Panic "monotonic: invalid core counter write: %u" 3) m.
Proof.
  intros m.
  apply (invalid_index_panics_when_supported m 3 42); [reflexivity | lia | lia | lia].
Defined.

(** C4 as stated fails: with the feature flag unset the index 3 does not
    halt the core; the read returns 0 and the write returns. *)
Lemma invalid_index_is_silent_when_unsupported :
  let m := Sim.core false false 0 [0; 0; 0] [0; 0; 0] in
  mt_core_snap 3 m = Done 0 m ∧ mt_core_set_snap 3 42 m = Done tt m.
Proof. intros m. split; reflexivity. Qed.

(** C5 on counter 0 with the count 100. *)
Lemma pmi_overflow_five_below_wrap_witness :
  let m := Sim.core true false (2 ^ 32) [100; 0; 0] [2 ^ 48 - 5; 0; 0] in
  pmi_wrapped (2 ^ 48 - 5) = 5
  ∧ pmi_fixed (2 ^ 32) 0 m
    = mt_mtc_update_count 0
        (Machine (set_mtc (MtCpu [105; 0; 0] [0; 0; 0]) (ks m)) (log m)).
Proof.
  intros m.
  destruct (pmi_overflow_five_below_wrap (2 ^ 32) 0 m 100)
    as (_ & H2 & _ & H4 & _);
    [unfold MT_CORE_NFIXED; lia | reflexivity | reflexivity | reflexivity |].
  split; [exact H2 | exact H4].
Defined.

(** C5 as stated fails: for the snapshot 2^48 - 5 the wrap delta is 5, not 6,
    and the count grows from 100 to 105. *)
Lemma pmi_wrap_delta_is_not_six :
  let m := Sim.core true false (2 ^ 32) [100; 0; 0] [2 ^ 48 - 5; 0; 0] in
  pmi_wrapped (2 ^ 48 - 5) = 5
  ∧ pmi_wrapped (2 ^ 48 - 5) ≠ 6
  ∧ pmi_fold 0 m
    = Done tt (Machine (set_mtc (MtCpu [105; 0; 0] [0; 0; 0]) (ks m)) (log m))
  ∧ (∃ m', mt_pmi_x86_64 7 m = Done 0 m'
           ∧ array_get (mtc_counts (cpu_monotonic (ks m'))) 0 = 105).
Proof.
  intros m. split; [reflexivity|]. split; [|split; [reflexivity|]].
  - change (pmi_wrapped (2 ^ 48 - 5)) with 5. lia.
  - eexists. split; reflexivity.
Qed.

Lemma sim_snaps_in_range (supported intrs : bool) (status : Z) (counts : list Z)
    (s0 s1 s2 : Z) :
  0 ≤ s0 ≤ 2 ^ 48 - 1 → 0 ≤ s1 ≤ 2 ^ 48 - 1 → 0 ≤ s2 ≤ 2 ^ 48 - 1 →
  pmi_snaps_in_range (Sim.core supported intrs status counts [s0; s1; s2]).
Proof.
  intros H0 H1 H2 i Hi _. fixed_cases i Hi; assumption.
Qed.

(** C6 on a core with the status 2^33. *)
Lemma pmi_only_fixed_counter_one_witness :
  let m := Sim.core true false (2 ^ 33) [10; 20; 30] [1; 2; 3] in
  ∃ m', mt_pmi_x86_64 7 m = Done 0 m'
        ∧ mtc_counts (cpu_monotonic (ks m')) = [10; 20 + (2 ^ 48 - 2); 30]
        ∧ mtc_snaps (cpu_monotonic (ks m')) !! 0%nat = Some 1
        ∧ mtc_snaps (cpu_monotonic (ks m')) !! 2%nat = Some 3
        ∧ kpc_forwards (log m') = [].
Proof.
  intros m.
  destruct (pmi_only_fixed_counter_one 7 m 2 20 sim_frame)
    as (Hrun & Hframe & _ & Hkpc);
    [reflexivity | reflexivity | reflexivity | reflexivity | | reflexivity | lia
    | reflexivity |].
  { intros n Hn. assert (Hc : n = 0 ∨ n = 1 ∨ n = 2 ∨ n = 3) by lia.
    destruct Hc as [-> | [-> | [-> | ->]]]; reflexivity. }
  eexists. split; [exact Hrun|]. split; [reflexivity|].
  split; [|split].
  - exact (proj2 (Hframe 0%nat ltac:(lia))).
  - exact (proj2 (Hframe 2%nat ltac:(lia))).
  - exact Hkpc.
Defined.

(** C7 on a status with the fixed bit 1 and the low bits 0 and 2. *)
Lemma pmi_forwards_once_for_low_four_bits_witness :
  let m := Sim.core true false (2 ^ 33 + 5) [10; 20; 30] [1; 2; 3] in
  ∃ m', mt_pmi_x86_64 7 m = Done 0 m' ∧ kpc_forwards (log m') = [7].
Proof.
  intros m.
  apply (pmi_forwards_once_for_low_four_bits 7 m sim_frame); [reflexivity|].
  apply sim_snaps_in_range; lia.
Defined.

(** C7 as stated fails: status bit 4 is not a fixed-counter bit, yet with only
    it set the handler returns without forwarding. *)
Lemma pmi_does_not_forward_bit_four :
  let m := Sim.core true false (2 ^ 4) [10; 20; 30] [1; 2; 3] in
  Z.testbit (pending_status m) 4 = true
  ∧ mt_pmi_x86_64 7 m
    = Done 0 (Machine (set_pmis 1 (ks m)) [EvRdmsr GLOBAL_STATUS])
  ∧ kpc_forwards (log (result_state (mt_pmi_x86_64 7 m))) = [].
Proof. intros m. split; [reflexivity|]. split; reflexivity. Qed.

(** C8 on a core entered with interrupts enabled. *)
Lemma cpu_up_restores_then_enables_witness :
  let m := Sim.core true true 0 [10; 20; 30] [11; 22; 33] in
  ∃ m', mt_cpu_up m = Done tt m'
        ∧ log m' = [ EvSetInterrupts false;
                     EvWrmsr 0x309 11; EvWrmsr 0x30a 22; EvWrmsr 0x30b 33;
                     EvWrmsr 0x38d 0xbbb; EvWrmsr 0x38f 0x700000000;
                     EvSetInterrupts true ]
        ∧ interrupts_enabled (ks m') = true.
Proof.
  intros m.
  destruct (cpu_up_restores_then_enables m eq_refl) as (_ & Hup & _).
  eexists. split; [exact Hup|]. split; reflexivity.
Defined.

(** C9 with the feature flag unset and the index 7. *)
Lemma unsupported_access_is_silent_witness :
  let m := Sim.core false true 0 [0; 0; 0] [0; 0; 0] in
  mt_core_snap 7 m = Done 0 m ∧ mt_core_set_snap 7 42 m = Done tt m.
Proof.
  intros m. apply (unsupported_access_is_silent m 7 42). reflexivity.
Defined.

(** C10 on a core with the fixed bit 0 and the low bit 0 set: the run
    returns 0, the status read comes first and the registers are as
    before. *)
Lemma pmi_writes_no_register_witness :
  let m := Sim.core true false (2 ^ 32 + 1) [10; 20; 30] [1; 2; 3] in
  ∃ m' evs, mt_pmi_x86_64 7 m = Done 0 m'
            ∧ log m' = log m ++ EvRdmsr GLOBAL_STATUS :: evs
            ∧ msr_writes (log m') = []
            ∧ hw (ks m') = hw (ks m).
Proof.
  intros m.
  destruct (pmi_writes_no_register 7 m) as (_ & Hch & _ & _ & Hret).
  destruct (Hret sim_frame eq_refl) as (m' & evs & Hrun & Hlog).
  { apply sim_snaps_in_range; lia. }
  exists m', evs. split; [exact Hrun|]. split; [exact Hlog|].
  rewrite Hrun in Hch. cbn [result_state] in Hch.
  injection Hrun as <-. split; reflexivity.
Defined.

(** * The further properties on the simulated platform *)

Lemma sim_read_back (c v : Z) (h : Sim.regs) :
  0 ≤ c < 3 →
  hw_rdpmc (2 ^ 30 + c) (hw_wrmsr (MSR_IA32_PERF_FIXED_CTR0 + c) v h) = v.
Proof.
  intros Hc. assert (Hcases : c = 0 ∨ c = 1 ∨ c = 2) by lia.
  destruct Hcases as [-> | [-> | ->]]; reflexivity.
Qed.

(** X1 on counter 2 with the value 1234. *)
Lemma set_snap_then_snap_round_trip_witness :
  let m := Sim.core true false 0 [0; 0; 0] [0; 0; 0] in
  ∃ m', (mt_core_set_snap 2 1234;; mt_core_snap 2) m = Done 1234 m'
        ∧ log m' = [EvWrmsr 0x30b 1234; EvRdpmc 0x40000002].
Proof.
  intros m. eexists. split.
  - apply (set_snap_then_snap_round_trip (λ v, v) m 2 1234);
      [intros c v h; apply sim_read_back | reflexivity | lia].
  - reflexivity.
Defined.

(** X3 on a supported core with interrupts disabled. *)
Lemma cpu_down_disables_then_flushes_witness :
  let m := Sim.core true false 0 [10; 20; 30] [1; 2; 3] in
  ∃ m', mt_cpu_down m = Done tt m'
        ∧ log m' = [EvWrmsr 0x38f 0; EvUpdateFixedCounts].
Proof.
  intros m. eexists. split.
  - apply (cpu_down_disables_then_flushes m); reflexivity.
  - reflexivity.
Defined.

(** X5 on a core without pending overflow. *)
Lemma pmi_entry_and_spurious_witness :
  let m := Sim.core true false (2 ^ 62) [10; 20; 30] [1; 2; 3] in
  mt_pmi_x86_64 7 m
  = Done 0 (Machine (set_pmis 1 (ks m)) [EvRdmsr GLOBAL_STATUS]).
Proof.
  intros m. apply (pmi_entry_and_spurious 7 m); [reflexivity|].
  intros n Hn.
  assert (Hc : n = 0 ∨ n = 1 ∨ n = 2 ∨ n = 3 ∨ n = 32 ∨ n = 33 ∨ n = 34) by lia.
  destruct Hc as [-> | [-> | [-> | [-> | [-> | [-> | ->]]]]]]; reflexivity.
Defined.

(** X6 on a core whose counter 1 overflowed with the snapshot 2^48, the low
    status bit 0 set as well. *)
Lemma pmi_halts_on_snapshot_out_of_range_witness :
  let m := Sim.core true false (2 ^ 33 + 1) [10; 20; 30] [1; 2 ^ 48; 3] in
  mt_pmi_x86_64 7 m
  = Halt (AssertFailed "prior <= CTR_MAX")
         (Machine (set_pmis 1 (ks m)) [EvRdmsr GLOBAL_STATUS]).
Proof.
  intros m.
  apply (pmi_halts_on_snapshot_out_of_range 7 m 1 (2 ^ 48));
    [reflexivity | unfold MT_CORE_NFIXED; lia | reflexivity | | reflexivity | lia].
  intros j Hj. assert (j = 0%nat) as -> by lia. reflexivity.
Defined.

(** X7 on a core whose counters 0 and 2 overflowed: counter 2 is folded,
    counter 1 keeps its count. *)
Lemma pmi_folds_each_overflowed_counter_once_witness :
  let m := Sim.core true false (2 ^ 32 + 2 ^ 34) [10; 20; 30] [1; 2; 2 ^ 48 - 3] in
  (∃ m', mt_pmi_x86_64 7 m = Done 0 m'
         ∧ mtc_counts (cpu_monotonic (ks m')) !! 2%nat = Some 33)
  ∧ (∃ m', mt_pmi_x86_64 7 m = Done 0 m'
           ∧ mtc_counts (cpu_monotonic (ks m')) !! 1%nat = Some 20).
Proof.
  intros m. split.
  - apply (pmi_folds_each_overflowed_counter_once 7 m 2 30 (2 ^ 48 - 3) sim_frame);
      [reflexivity | reflexivity | apply sim_snaps_in_range; lia
      | unfold MT_CORE_NFIXED; lia | reflexivity | reflexivity].
  - apply (pmi_folds_each_overflowed_counter_once 7 m 1 20 2 sim_frame);
      [reflexivity | reflexivity | apply sim_snaps_in_range; lia
      | unfold MT_CORE_NFIXED; lia | reflexivity | reflexivity].
Defined.

(** X8 on a status with the fixed bits 0 and 2 and the low bit 3. *)
Lemma pmi_calls_in_counter_order_witness :
  let m := Sim.core true false (2 ^ 32 + 2 ^ 34 + 8) [10; 20; 30] [1; 2; 3] in
  ∃ m', mt_pmi_x86_64 7 m = Done 0 m'
        ∧ log m' = [EvRdmsr GLOBAL_STATUS; EvUpdateCount 0; EvUpdateCount 2;
                    EvKpcPmi 7].
Proof.
  intros m.
  apply (pmi_calls_in_counter_order 7 m sim_frame); [reflexivity|].
  apply sim_snaps_in_range; lia.
Defined.

(** X9 on the simulated platform, whose version is 4. *)
Lemma mt_init_sets_flag_by_version_witness :
  let m := Sim.core false true 0 [0; 0; 0] [0; 0; 0] in
  pmc_version (hw (ks m)) = 4
  ∧ 2 ≤ pmc_version (hw (ks m))
  ∧ lapic_pmi_func (ks (result_state (mt_init m))) = true.
Proof.
  intros m. split; [reflexivity|].
  destruct (mt_init_sets_flag_by_version m) as (_ & _ & H & _).
  apply H; reflexivity.
Defined.

(** X10 on the simulated platform with version 1, with the index 5. *)
Lemma unsupported_platform_is_inert_witness :
  let m := Sim.core false true 0 [0; 0; 0] [0; 0; 0] in
  let m0 := Machine (ks m) [EvCpuid 0xA] in
  @mt_init _ Sim.platform_v1 m = Done tt m0
  ∧ @mt_core_snap _ Sim.platform_v1 5 m0 = Done 0 m0
  ∧ @mt_core_set_snap _ Sim.platform_v1 5 42 m0 = Done tt m0
  ∧ @mt_cpu_down _ Sim.platform_v1 m0 = Done tt m0
  ∧ @mt_cpu_up _ Sim.platform_v1 m0
    = Done tt (Machine (ks m0)
                 [EvCpuid 0xA; EvSetInterrupts false; EvSetInterrupts true]).
Proof.
  intros m m0.
  apply (@unsupported_platform_is_inert _ Sim.platform_v1 m 5 42);
    [reflexivity | reflexivity].
Defined.

(** X11 on a write of counter 1 on the simulated platform, whose fixed
    counters are the registers 0x309 to 0x30b. *)
Lemma entry_points_write_only_counter_registers_witness :
  let m := Sim.core true false 0 [10; 20; 30] [1; 2; 3] in
  ∃ evs : list event,
    log (result_state (exec (OpCoreSetSnap 1 99) m)) = log m ++ evs
    ∧ Forall (λ w : Z * Z, w.1 ≠ GLOBAL_STATUS ∧ w.1 ≠ GLOBAL_OVF)
             (msr_writes evs).
Proof.
  intros m.
  destruct (entry_points_write_only_counter_registers (OpCoreSetSnap 1 99) m)
    as (evs & Hlog & _ & _ & Hspare).
  exists evs. split; [exact Hlog|]. apply Hspare.
  intros c Hc. assert (Hcases : c = 0 ∨ c = 1 ∨ c = 2) by lia.
  destruct Hcases as [-> | [-> | ->]]; split; discriminate.
Defined.

(** X12 on a supported core with interrupts disabled. *)
Lemma cpu_down_then_up_restores_flushed_snapshots_witness :
  let m := Sim.core true false 0 [10; 20; 30] [1; 2; 3] in
  ∃ m', (mt_cpu_down;; mt_cpu_up) m = Done tt m'
        ∧ msr_writes (log m')
          = [(0x38f, 0); (0x309, 0); (0x30a, 0); (0x30b, 0);
             (0x38d, 0xbbb); (0x38f, 0x700000000)].
Proof.
  intros m. eexists. split.
  - apply (cpu_down_then_up_restores_flushed_snapshots m);
      [intros k; reflexivity | reflexivity | reflexivity].
  - reflexivity.
Defined.
